(** * The universal Turnstile form handler: a shallow embedding

    This development embeds [cloudflare-turnstile-handler.js] and states the
    properties of its submission lifecycle.

    Modelling conventions.
    - DOM elements are objects in a heap ([elements], keyed by a node
      reference); the document is a tree of node references in document
      order.  A JavaScript reference to an element is the node's key, so two
      holders of the same key alias the same element.
    - The registration objects ([config] in the source) live in the list
      [forms] of the handler; closures that capture a [config] capture its
      index in that list.
    - The code is event driven.  Every synchronous stretch of the source
      (a method, a listener, a callback, the part of [handleFormSubmit]
      before or after its [await]) is a function from [World] to [World].
    - Calls that leave the program ([alert], [fetch], [setTimeout], the
      challenge provider's [render] and [reset], appending a script to the
      document head) are recorded in the world in call order.
    - [console.log]/[console.error] lines have no effect on the state and are
      left out.  Payload objects are modelled by their own string-keyed
      properties.
    - The provider's [render] and [reset] are taken to return normally, and
      a settled response has the shape [{ success, error?: { message } }];
      anything else the awaited calls can do is the [Rejected] outcome.
    - What the browser decides ([checkValidity()], the random draw, the
      order of listeners on one target) is an argument of the function that
      depends on it. *)

From stdpp Require Import gmap strings list fin_maps.

Set Warnings "-register-all".
Local Open Scope string_scope.
Local Open Scope list_scope.

(** The double-quote character, for messages that quote a name. *)
Definition dquote : string := String (Ascii.ascii_of_nat 34) EmptyString.

(* ================================================================== *)
(** * JavaScript values *)
(* ================================================================== *)

Inductive JSValue : Type :=
| VNull
| VBool (b : bool)
| VNum (z : Z)
| VStr (s : string)
| VObj (o : gmap string JSValue).

(** Truthiness of a nullable string ([null], [undefined] and the empty string
    are falsy). *)
Definition truthy (o : option string) : bool :=
  match o with
  | Some s => bool_decide (s ≠ "")
  | None => false
  end.

Definition nullable (o : option string) : JSValue :=
  match o with Some s => VStr s | None => VNull end.

(** A nullable string inside a template literal. *)
Definition interpolate (o : option string) : string :=
  match o with Some s => s | None => "null" end.

(* ================================================================== *)
(** * FORM_CONFIG *)
(* ================================================================== *)

Module FORM_CONFIG.
Definition workerUrl := "https://spam-detection-engine.hello-be0.workers.dev/".
Definition formIdAttribute := "cf-form".
Definition formPurposeAttribute := "cf-form-purpose".
Definition siteKeyAttribute := "cf-turnstile-sitekey".
Definition fieldTypeAttribute := "cf-field-type".
Definition fieldDataAttribute := "cf-field-data".
Definition hideClass := "hide".
Definition turnstileContainerClass := "cf-turnstile-container".
Definition turnstileTheme := "light".
Definition turnstileSize := "normal".
Definition loadingText := "Sending...".
Definition enableHoneypot := true.
Definition honeypotFieldNames : list string :=
  [ "honeypot_website"; "honeypot_url"; "honeypot_company_site";
    "honeypot_business_url"; "bot_trap_website"; "bot_trap_url";
    "spam_trap_site"; "spam_trap_link" ].
Definition pageUrlField_enabled := true.
Definition pageUrlField_fieldName := "Page URL".
End FORM_CONFIG.

(* ================================================================== *)
(** * The DOM *)
(* ================================================================== *)

(** An element object.  [attributes] are the content attributes
    ([getAttribute]); the other fields are the IDL properties the script
    reads or writes. *)
Record Element : Type := mkElement {
  tagName : string;
  attributes : list (string * string);
  type : string;
  value : string;
  checked : bool;
  disabled : bool;
  innerHTML : string;
  textContent : string;
  classList : list string;
  style : list (string * string);
}.

Fixpoint assoc (k : string) (l : list (string * string)) : option string :=
  match l with
  | [] => None
  | (k', v) :: l' => if decide (k' = k) then Some v else assoc k l'
  end.

Definition getAttribute (a : string) (e : Element) : option string :=
  assoc a (attributes e).

(** The [name] property of a form control reflects its [name] attribute. *)
Definition name (e : Element) : string :=
  default "" (getAttribute "name" e).

Definition set_value (v : string) (e : Element) : Element :=
  mkElement (tagName e) (attributes e) (type e) v (checked e) (disabled e)
            (innerHTML e) (textContent e) (classList e) (style e).

Definition set_disabled (b : bool) (e : Element) : Element :=
  mkElement (tagName e) (attributes e) (type e) (value e) (checked e) b
            (innerHTML e) (textContent e) (classList e) (style e).

Definition set_innerHTML (s : string) (e : Element) : Element :=
  mkElement (tagName e) (attributes e) (type e) (value e) (checked e)
            (disabled e) s (textContent e) (classList e) (style e).

Definition set_textContent (s : string) (e : Element) : Element :=
  mkElement (tagName e) (attributes e) (type e) (value e) (checked e)
            (disabled e) (innerHTML e) s (classList e) (style e).

Definition set_classList (c : list string) (e : Element) : Element :=
  mkElement (tagName e) (attributes e) (type e) (value e) (checked e)
            (disabled e) (innerHTML e) (textContent e) c (style e).

Definition classList_add (c : string) (e : Element) : Element :=
  if bool_decide (c ∈ classList e) then e
  else set_classList (classList e ++ [c]) e.

Definition classList_remove (c : string) (e : Element) : Element :=
  set_classList (filter (λ c', c' ≠ c) (classList e)) e.

Fixpoint assoc_set (k v : string) (l : list (string * string))
  : list (string * string) :=
  match l with
  | [] => [(k, v)]
  | (k', v') :: l' =>
      if decide (k' = k) then (k, v) :: l' else (k', v') :: assoc_set k v l'
  end.

Definition set_style (p v : string) (e : Element) : Element :=
  mkElement (tagName e) (attributes e) (type e) (value e) (checked e)
            (disabled e) (innerHTML e) (textContent e) (classList e)
            (assoc_set p v (style e)).

(** [document.createElement(tag)]. *)
Definition createElement (tag : string) : Element :=
  mkElement tag [] (if decide (tag = "input") then "text" else "")
            "" false false "" "" [] [].

(** The selectors the script uses. *)
Inductive Selector : Type :=
| SelAttr (tag : option string) (attr : string) (val : option string)
    (* [tag[attr]], [tag[attr="val"]], with or without the tag *)
| SelClass (c : string)            (* [.c] *)
| SelTags (tags : list string).    (* [t1, t2, ...] *)

Definition matches (s : Selector) (e : Element) : bool :=
  match s with
  | SelAttr tag a v =>
      match tag with Some t => bool_decide (tagName e = t) | None => true end
      && match getAttribute a e, v with
         | Some x, Some y => bool_decide (x = y)
         | Some _, None => true
         | None, _ => false
         end
  | SelClass c => bool_decide (c ∈ classList e)
  | SelTags tags => bool_decide (tagName e ∈ tags)
  end.

Module Sel.
Definition form := SelAttr (Some "form") "cf-form" None.
Definition submitButton := SelAttr None "cf-form-submit" (Some "trigger").
Definition submitLabel := SelAttr None "cf-form-submit" (Some "button-label").
Definition errorElement := SelAttr None "cf-form-submit" (Some "error").
Definition errorText := SelAttr None "cf-form-submit" (Some "error-text").
Definition successElement := SelAttr None "cf-form-submit" (Some "success").
Definition fieldType := SelAttr None FORM_CONFIG.fieldTypeAttribute None.
Definition honeypot := SelAttr (Some "input") "data-honeypot" (Some "true").
Definition pageUrl :=
  SelAttr (Some "input") "name" (Some FORM_CONFIG.pageUrlField_fieldName).
Definition turnstileContainer := SelClass FORM_CONFIG.turnstileContainerClass.
Definition controls := SelTags ["input"; "textarea"; "select"].
End Sel.

(** The document tree: node references in document order. *)
Inductive Tree : Type := Node (ref : nat) (childNodes : list Tree).

Definition ref_of (t : Tree) : nat := match t with Node r _ => r end.
Definition children_of (t : Tree) : list Tree :=
  match t with Node _ ks => ks end.

(** All references of a tree, root first, in document order. *)
Fixpoint preorder (t : Tree) : list nat :=
  match t with Node r ks => r :: flat_map preorder ks end.

(** The subtree rooted at the first node, in document order, that carries
    reference [r]. *)
Fixpoint find_node (r : nat) (t : Tree) : option Tree :=
  match t with
  | Node r' ks =>
      if decide (r' = r) then Some t
      else (fix go (l : list Tree) : option Tree :=
              match l with
              | [] => None
              | k :: l' =>
                  match find_node r k with
                  | Some s => Some s
                  | None => go l'
                  end
              end) ks
  end.

(** The descendants of node [r] in document order ([r] itself excluded). *)
Definition descendants (r : nat) (t : Tree) : list nat :=
  match find_node r t with
  | Some s => flat_map preorder (children_of s)
  | None => []
  end.

(** [parent.insertBefore(new, parent.firstChild)]. *)
Fixpoint prependChild (parent : nat) (new : Tree) (t : Tree) : Tree :=
  match t with
  | Node r ks =>
      if decide (r = parent) then Node r (new :: ks)
      else Node r (map (prependChild parent new) ks)
  end.

(** [parent.appendChild(new)]. *)
Fixpoint appendChild (parent : nat) (new : Tree) (t : Tree) : Tree :=
  match t with
  | Node r ks =>
      if decide (r = parent) then Node r (ks ++ [new])
      else Node r (map (appendChild parent new) ks)
  end.

(** [before.parentNode.insertBefore(new, before)]. *)
Fixpoint insertBefore (before : nat) (new : Tree) (t : Tree) : Tree :=
  match t with
  | Node r ks =>
      Node r (flat_map (λ k, if decide (ref_of k = before)
                             then [new; k]
                             else [insertBefore before new k]) ks)
  end.

Definition setAttribute (a v : string) (e : Element) : Element :=
  mkElement (tagName e) (assoc_set a v (attributes e)) (type e) (value e)
            (checked e) (disabled e) (innerHTML e) (textContent e)
            (classList e) (style e).

(** Assigning the [type] and [name] properties of an input reflects into the
    content attributes. *)
Definition set_type (t : string) (e : Element) : Element :=
  setAttribute "type" t
    (mkElement (tagName e) (attributes e) t (value e) (checked e) (disabled e)
               (innerHTML e) (textContent e) (classList e) (style e)).

Definition set_name (n : string) (e : Element) : Element :=
  setAttribute "name" n e.

(* ================================================================== *)
(** * Registrations and the world *)
(* ================================================================== *)

(** The [config] object of one form.  [turnstileWidgetId] and
    [originalButtonText] are [undefined] ([None]) until first assigned. *)
Record Config : Type := mkConfig {
  formId : option string;
  formPurpose : option string;
  siteKey : option string;
  formElement : nat;
  submitButton : option nat;
  submitLabel : option nat;
  errorElement : option nat;
  errorText : option nat;
  successElement : option nat;
  turnstileToken : option string;
  turnstileWidgetId : option nat;
  originalButtonText : option string;
}.

Definition set_turnstileToken (t : option string) (c : Config) : Config :=
  mkConfig (formId c) (formPurpose c) (siteKey c) (formElement c)
           (submitButton c) (submitLabel c) (errorElement c) (errorText c)
           (successElement c) t (turnstileWidgetId c) (originalButtonText c).

Definition set_turnstileWidgetId (h : option nat) (c : Config) : Config :=
  mkConfig (formId c) (formPurpose c) (siteKey c) (formElement c)
           (submitButton c) (submitLabel c) (errorElement c) (errorText c)
           (successElement c) (turnstileToken c) h (originalButtonText c).

Definition set_originalButtonText (t : option string) (c : Config) : Config :=
  mkConfig (formId c) (formPurpose c) (siteKey c) (formElement c)
           (submitButton c) (submitLabel c) (errorElement c) (errorText c)
           (successElement c) (turnstileToken c) (turnstileWidgetId c) t.

(** Closures handed to the outside: each captures a registration. *)
Inductive Callback : Type :=
| RenderTurnstile (i : nat).       (* [() => this.renderTurnstile(config)] *)

Record Script : Type := mkScript {
  src : string;
  async : bool;
  defer : bool;
  onload : Callback;
}.

(** Calls made on [window.turnstile]. *)
Inductive TurnstileCall : Type :=
| TsRender (container : nat) (sitekey : option string) (owner : nat)
| TsReset (handle : option nat).   (* [reset(id)], or [reset()] for [None] *)

Inductive Handler : Type :=
| PrimarySubmit (i : nat)   (* first listener of [setupFormSubmission] *)
| BackstopSubmit.           (* second listener, capture phase *)

Record Listener : Type := mkListener {
  target : nat;
  useCapture : bool;
  handler : Handler;
}.

Inductive TimerAction : Type :=
| RerenderIfTokenless (i : nat).

Record Timer : Type := mkTimer {
  delay : nat;
  action : TimerAction;
}.

Record Request : Type := mkRequest {
  url : string;
  method : string;
  headers : list (string * string);
  body : JSValue;        (* the payload handed to [JSON.stringify] *)
}.

(** Ambient browser values read while a payload is built. *)
Record Env : Type := mkEnv {
  now : Z;                (* [Date.now()] *)
  loadEventEnd : Z;       (* [window.performance.timing.loadEventEnd] *)
  userAgent : string;
  referrer : string;
  timeZone : string;
}.

Record World : Type := mkWorld {
  document : Tree;
  elements : gmap nat Element;
  headScripts : list Script;          (* appended to [document.head] *)
  turnstile : bool;                   (* is [window.turnstile] defined *)
  turnstileCalls : list TurnstileCall;
  forms : list Config;                (* [this.forms] *)
  listeners : list Listener;
  timers : list Timer;                (* [setTimeout] calls *)
  alerts : list string;               (* [alert] calls *)
  requests : list Request;            (* [fetch] calls *)
  href : string;                      (* [window.location.href] *)
  env : Env;
}.

Definition set_document (d : Tree) (w : World) : World :=
  mkWorld d (elements w) (headScripts w) (turnstile w) (turnstileCalls w)
          (forms w) (listeners w) (timers w) (alerts w) (requests w)
          (href w) (env w).

Definition set_elements (h : gmap nat Element) (w : World) : World :=
  mkWorld (document w) h (headScripts w) (turnstile w) (turnstileCalls w)
          (forms w) (listeners w) (timers w) (alerts w) (requests w)
          (href w) (env w).

Definition set_headScripts (s : list Script) (w : World) : World :=
  mkWorld (document w) (elements w) s (turnstile w) (turnstileCalls w)
          (forms w) (listeners w) (timers w) (alerts w) (requests w)
          (href w) (env w).

Definition set_turnstile (b : bool) (w : World) : World :=
  mkWorld (document w) (elements w) (headScripts w) b (turnstileCalls w)
          (forms w) (listeners w) (timers w) (alerts w) (requests w)
          (href w) (env w).

Definition set_turnstileCalls (c : list TurnstileCall) (w : World) : World :=
  mkWorld (document w) (elements w) (headScripts w) (turnstile w) c
          (forms w) (listeners w) (timers w) (alerts w) (requests w)
          (href w) (env w).

Definition set_forms (f : list Config) (w : World) : World :=
  mkWorld (document w) (elements w) (headScripts w) (turnstile w)
          (turnstileCalls w) f (listeners w) (timers w) (alerts w)
          (requests w) (href w) (env w).

Definition set_listeners (l : list Listener) (w : World) : World :=
  mkWorld (document w) (elements w) (headScripts w) (turnstile w)
          (turnstileCalls w) (forms w) l (timers w) (alerts w) (requests w)
          (href w) (env w).

Definition set_timers (t : list Timer) (w : World) : World :=
  mkWorld (document w) (elements w) (headScripts w) (turnstile w)
          (turnstileCalls w) (forms w) (listeners w) t (alerts w)
          (requests w) (href w) (env w).

Definition set_alerts (a : list string) (w : World) : World :=
  mkWorld (document w) (elements w) (headScripts w) (turnstile w)
          (turnstileCalls w) (forms w) (listeners w) (timers w) a
          (requests w) (href w) (env w).

Definition set_requests (r : list Request) (w : World) : World :=
  mkWorld (document w) (elements w) (headScripts w) (turnstile w)
          (turnstileCalls w) (forms w) (listeners w) (timers w) (alerts w) r
          (href w) (env w).

(** Assignment to properties of the element behind reference [r]. *)
Definition update_element (r : nat) (f : Element → Element) (w : World)
  : World :=
  set_elements (alter f r (elements w)) w.

(** Assignment to properties of the registration object [i]. *)
Definition update_config (i : nat) (f : Config → Config) (w : World)
  : World :=
  set_forms (alter f i (forms w)) w.

(** Does the element behind [r] match the selector. *)
Definition selects (w : World) (s : Selector) (r : nat) : Prop :=
  match elements w !! r with
  | Some e => matches s e = true
  | None => False
  end.

#[global] Instance selects_dec w s r : Decision (selects w s r).
Proof. unfold selects. destruct (elements w !! r); apply _. Defined.

(** [root.querySelectorAll(s)] and [root.querySelector(s)]. *)
Definition querySelectorAll (root : nat) (s : Selector) (w : World)
  : list nat :=
  filter (selects w s) (descendants root (document w)).

Definition querySelector (root : nat) (s : Selector) (w : World)
  : option nat :=
  head (querySelectorAll root s w).

(** [document.querySelectorAll(s)] and [document.querySelector(s)]. *)
Definition document_querySelectorAll (s : Selector) (w : World) : list nat :=
  filter (selects w s) (preorder (document w)).

Definition document_querySelector (s : Selector) (w : World) : option nat :=
  head (document_querySelectorAll s w).

(** A reference no node and no element object uses yet. *)
Definition fresh_ref (w : World) : nat :=
  S (max_list (preorder (document w) ++ (map_to_list (elements w)).*1)).

(* ================================================================== *)
(** * UIStatePresenter *)
(* ================================================================== *)

Definition enableSubmitButton (i : nat) (w : World) : World :=
  match forms w !! i with
  | None => w
  | Some config =>
      match submitButton config with
      | Some sb =>
          update_element sb (set_style "opacity" "1")
            (update_element sb (set_disabled false) w)
      | None => w
      end
  end.

Definition disableSubmitButton (i : nat) (w : World) : World :=
  match forms w !! i with
  | None => w
  | Some config =>
      match submitButton config with
      | Some sb =>
          update_element sb (set_style "opacity" "0.6")
            (update_element sb (set_disabled true) w)
      | None => w
      end
  end.

Definition setSubmitButtonLoading (i : nat) (loading : bool) (w : World)
  : World :=
  match forms w !! i with
  | None => w
  | Some config =>
      match submitButton config with
      | None => w
      | Some sb =>
          if loading then
            let w1 := update_element sb (set_disabled true) w in
            match submitLabel config with
            | Some sl =>
                let w2 :=
                  update_config i
                    (set_originalButtonText (innerHTML <$> elements w1 !! sl))
                    w1 in
                update_element sl (set_innerHTML FORM_CONFIG.loadingText) w2
            | None => w1
            end
          else
            let w1 := update_element sb (set_disabled false) w in
            match submitLabel config with
            | Some sl =>
                if truthy (originalButtonText config)
                then update_element sl
                       (set_innerHTML (default "" (originalButtonText config)))
                       w1
                else w1
            | None => w1
            end
      end
  end.

Definition showError (i : nat) (message : string) (w : World) : World :=
  match forms w !! i with
  | None => w
  | Some config =>
      match errorElement config, errorText config with
      | Some ee, Some et =>
          update_element ee (classList_remove FORM_CONFIG.hideClass)
            (update_element et (set_textContent message) w)
      | _, _ => set_alerts (alerts w ++ [message]) w
      end
  end.

Definition hideError (i : nat) (w : World) : World :=
  match forms w !! i with
  | None => w
  | Some config =>
      match errorElement config with
      | Some ee => update_element ee (classList_add FORM_CONFIG.hideClass) w
      | None => w
      end
  end.

(* ================================================================== *)
(** * ChallengeLifecycleManager *)
(* ================================================================== *)

(** The first part of [renderTurnstile]: the container of the widget, found
    in the form or created and put before the submit button (at the end of
    the form when there is no submit button). *)
Definition turnstile_container (config : Config) (w : World) : nat * World :=
  match querySelector (formElement config) Sel.turnstileContainer w with
  | Some c => (c, w)
  | None =>
      let c := fresh_ref w in
      let div :=
        set_style "marginBottom" "20px"
          (set_classList [FORM_CONFIG.turnstileContainerClass]
             (createElement "div")) in
      let w' := set_elements (<[c := div]> (elements w)) w in
      match submitButton config with
      | Some sb =>
          (c, set_document (insertBefore sb (Node c []) (document w')) w')
      | None =>
          (c, set_document
                (appendChild (formElement config) (Node c []) (document w'))
                w')
      end
  end.

Definition renderTurnstile (i : nat) (w : World) : World :=
  match forms w !! i with
  | None => w
  | Some config =>
      let turnstileContainer := (turnstile_container config w).1 in
      let w1 := (turnstile_container config w).2 in
      (* the handle returned by [window.turnstile.render] *)
      let widgetId := S (length (turnstileCalls w1)) in
      let w2 :=
        set_turnstileCalls
          (turnstileCalls w1 ++ [TsRender turnstileContainer (siteKey config) i])
          w1 in
      let w3 := update_config i (set_turnstileWidgetId (Some widgetId)) w2 in
      disableSubmitButton i w3
  end.

Definition run_callback (cb : Callback) (w : World) : World :=
  match cb with
  | RenderTurnstile i => renderTurnstile i w
  end.

Definition loadTurnstile (callback : Callback) (w : World) : World :=
  if negb (turnstile w) then
    set_headScripts
      (headScripts w ++
         [mkScript "https://challenges.cloudflare.com/turnstile/v0/api.js"
                   true true callback]) w
  else run_callback callback w.

(** The [k]-th appended script has loaded: it defines [window.turnstile] and
    its [onload] handler runs. *)
Definition script_loaded (k : nat) (w : World) : World :=
  match headScripts w !! k with
  | Some s => run_callback (onload s) (set_turnstile true w)
  | None => w
  end.

(** The three callbacks registered with the widget of registration [i]. *)
Definition token_callback (i : nat) (token : string) (w : World) : World :=
  enableSubmitButton i (update_config i (set_turnstileToken (Some token)) w).

Definition error_callback (i : nat) (w : World) : World :=
  showError i "Security verification failed. Please try again."
    (disableSubmitButton i (update_config i (set_turnstileToken None) w)).

Definition expired_callback (i : nat) (w : World) : World :=
  disableSubmitButton i (update_config i (set_turnstileToken None) w).

Definition resetTurnstileOnError (i : nat) (w : World) : World :=
  match forms w !! i with
  | None => w
  | Some config =>
      if turnstile w then
        let w1 :=
          set_turnstileCalls
            (turnstileCalls w ++ [TsReset (turnstileWidgetId config)]) w in
        let w2 := update_config i (set_turnstileToken None) w1 in
        let w3 := disableSubmitButton i w2 in
        set_timers (timers w3 ++ [mkTimer 1000 (RerenderIfTokenless i)]) w3
      else w
  end.


(* ================================================================== *)
(** * FormDataCollector *)
(* ================================================================== *)

(** The three objects filled by the loop of [collectFormData]. *)
Record Collected : Type := mkCollected {
  formData : gmap string JSValue;
  fieldTypes : gmap string string;
  fieldDataDescriptions : gmap string string;
}.

(** The guard of the loop body. *)
Definition collected (input : Element) : bool :=
  bool_decide (name input ≠ "") && bool_decide (type input ≠ "submit").

(** One iteration of [inputs.forEach]. *)
Definition collect_input (acc : Collected) (input : Element) : Collected :=
  if collected input then
    let formData' :=
      if decide (type input = "checkbox") then
        <[name input := VBool (checked input)]> (formData acc)
      else if decide (type input = "radio") then
        if checked input
        then <[name input := VStr (value input)]> (formData acc)
        else formData acc
      else <[name input := VStr (value input)]> (formData acc) in
    let fieldType := getAttribute FORM_CONFIG.fieldTypeAttribute input in
    let fieldData := getAttribute FORM_CONFIG.fieldDataAttribute input in
    let fieldTypes' :=
      if truthy fieldType
      then <[name input := default "" fieldType]> (fieldTypes acc)
      else fieldTypes acc in
    let fieldDataDescriptions' :=
      if truthy fieldData
      then <[name input := default "" fieldData]> (fieldDataDescriptions acc)
      else fieldDataDescriptions acc in
    mkCollected formData' fieldTypes' fieldDataDescriptions'
  else acc.

Definition collect_inputs (inputs : list Element) : Collected :=
  foldl collect_input (mkCollected ∅ ∅ ∅) inputs.

(** The element objects behind a list of references. *)
Definition deref (w : World) (rs : list nat) : list Element :=
  omap (λ r, elements w !! r) rs.

Definition form_controls (config : Config) (w : World) : list Element :=
  deref w (querySelectorAll (formElement config) Sel.controls w).

Definition collectFormData (config : Config) (w : World)
  : gmap string JSValue :=
  let acc := collect_inputs (form_controls config w) in
  let formData1 :=
    if FORM_CONFIG.enableHoneypot then
      match querySelector (formElement config) Sel.honeypot w
              ≫= (λ r, elements w !! r) with
      | Some honeypotField =>
          <["_honeypot_filled" :=
              VBool (bool_decide (value honeypotField ≠ ""))]>
            (<["_honeypot_field_name" := VStr (name honeypotField)]>
               (formData acc))
      | None => formData acc
      end
    else formData acc in
  <["fieldDataDescriptions" := VObj (VStr <$> fieldDataDescriptions acc)]>
    (<["fieldTypes" := VObj (VStr <$> fieldTypes acc)]> formData1).

(* ================================================================== *)
(** * SubmissionController *)
(* ================================================================== *)

Definition handleSuccess (i : nat) (w : World) : World :=
  match forms w !! i with
  | None => w
  | Some config =>
      let w1 :=
        update_element (formElement config) (set_style "display" "none") w in
      let w2 :=
        match successElement config with
        | Some se => update_element se (set_style "display" "block") w1
        | None => w1
        end in
      let w3 :=
        if turnstile w2
        then set_turnstileCalls (turnstileCalls w2 ++ [TsReset None]) w2
        else w2 in
      update_config i (set_turnstileToken None) w3
  end.

(** The verification service's answer, [{ success, error?: { message } }]. *)
Record VerificationResult : Type := mkResult {
  success : bool;
  error : option (option string);  (* [error], and inside it [message] *)
}.

(** How the awaited [fetch(...)] and [response.json()] end. *)
Inductive Outcome : Type :=
| Resolved (result : VerificationResult)
| Rejected.                        (* transport or parse failure *)

Definition metadata (config : Config) (w : World) : JSValue :=
  VObj (<["formPurpose" := nullable (formPurpose config)]>
       (<["formId" := nullable (formId config)]>
       (<["timezone" := VStr (timeZone (env w))]>
       (<["referrer" := VStr (referrer (env w))]>
       (<["userAgent" := VStr (userAgent (env w))]>
       (<["pageLoadTime" := VNum (loadEventEnd (env w))]>
       (<["submissionTime" := VNum (now (env w))]> ∅))))))).

(** [handleFormSubmit] up to its first [await]. *)
Definition handleFormSubmit (i : nat) (w : World) : World :=
  let w1 := hideError i w in
  match forms w1 !! i with
  | None => w1
  | Some config =>
      if negb (truthy (turnstileToken config)) then
        showError i "Please complete the security verification." w1
      else
        let w2 := setSubmitButtonLoading i true w1 in
        let formData :=
          <["metadata" := metadata config w2]> (collectFormData config w2) in
        let payload :=
          VObj (<["formPurpose" := nullable (formPurpose config)]>
               (<["fieldTypes" := default VNull (formData !! "fieldTypes")]>
               (<["formData" := VObj formData]>
               (<["turnstileToken" := nullable (turnstileToken config)]> ∅))))
        in
        set_requests
          (requests w2 ++
             [mkRequest FORM_CONFIG.workerUrl "POST"
                        [("Content-Type", "application/json")] payload]) w2
  end.

(** [handleFormSubmit] from the point where the awaited response is settled:
    the rest of the [try] block, the [catch] block, and [finally]. *)
Definition handleFormSubmit_settled (i : nat) (o : Outcome) (w : World)
  : World :=
  let w1 :=
    match o with
    | Resolved result =>
        if success result then handleSuccess i w
        else
          let w' := resetTurnstileOnError i w in
          let message := error result ≫= id in
          showError i
            (if truthy message then default "" message
             else "Something went wrong. Please try again.") w'
    | Rejected =>
        let w' := resetTurnstileOnError i w in
        showError i
          "Network error. Please check your connection and try again." w'
    end in
  setSubmitButtonLoading i false w1.

(** ** Submit events *)

Record Event : Type := mkEvent {
  defaultPrevented : bool;
  propagationStopped : bool;
  immediatePropagationStopped : bool;
}.

Definition submit_event : Event := mkEvent false false false.

Definition preventDefault (e : Event) : Event :=
  mkEvent true (propagationStopped e) (immediatePropagationStopped e).
Definition stopPropagation (e : Event) : Event :=
  mkEvent (defaultPrevented e) true (immediatePropagationStopped e).
Definition stopImmediatePropagation (e : Event) : Event :=
  mkEvent (defaultPrevented e) true true.

(** A listener body.  [valid] is what [config.formElement.checkValidity()]
    answers. *)
Definition run_handler (valid : bool) (h : Handler) (s : Event * World)
  : Event * World :=
  let '(e, w) := s in
  match h with
  | PrimarySubmit i =>
      if negb valid then (e, w)
      else
        (stopImmediatePropagation (stopPropagation (preventDefault e)),
         handleFormSubmit i w)
  | BackstopSubmit => (preventDefault e, w)
  end.

(** The order in which listeners registered on the event's own target run:
    capturing listeners first (the current DOM standard), or plain
    registration order (the behaviour of older browsers). *)
Inductive TargetOrder : Type := CaptureFirst | RegistrationOrder.

Definition listeners_in_order (o : TargetOrder) (ls : list Listener)
  : list Listener :=
  match o with
  | CaptureFirst =>
      filter (λ l, useCapture l = true) ls
        ++ filter (λ l, useCapture l = false) ls
  | RegistrationOrder => ls
  end.

(** A native [submit] event fired at form element [f]. *)
Definition dispatch_submit (o : TargetOrder) (f : nat) (valid : bool)
    (w : World) : Event * World :=
  foldl
    (λ s l, if immediatePropagationStopped (s.1) then s
            else run_handler valid (handler l) s)
    (submit_event, w)
    (listeners_in_order o (filter (λ l, target l = f) (listeners w))).

Definition setupFormSubmission (i : nat) (w : World) : World :=
  match forms w !! i with
  | None => w
  | Some config =>
      set_listeners
        (listeners w ++
           [mkListener (formElement config) false (PrimarySubmit i);
            mkListener (formElement config) true BackstopSubmit]) w
  end.

(* ================================================================== *)
(** * TrapInjector *)
(* ================================================================== *)

Definition honeypot_cssText : string :=
  "position: absolute !important; left: -9999px !important; top: -9999px !important; width: 1px !important; height: 1px !important; opacity: 0 !important; pointer-events: none !important;".

(** [createElement] followed by
    [parent.insertBefore(element, parent.firstChild)]: the new element
    object gets a fresh reference and becomes the first child. *)
Definition insert_first_child (parent : nat) (element : Element) (w : World)
  : World :=
  let r := fresh_ref w in
  set_document (prependChild parent (Node r []) (document w))
    (set_elements (<[r := element]> (elements w)) w).

(** The honeypot input.  [rnd] is the random draw; the index into the pool
    is [Math.floor(Math.random() * honeypotFieldNames.length)]. *)
Definition honeypot_element (rnd : nat) : Element :=
  let randomFieldName :=
    default ""
      (FORM_CONFIG.honeypotFieldNames
         !! (rnd `mod` length FORM_CONFIG.honeypotFieldNames)) in
  setAttribute "aria-hidden" "true"
    (set_style "cssText" honeypot_cssText
       (setAttribute "autocomplete" "off"
          (setAttribute "tabindex" "-1"
             (setAttribute "data-honeypot" "true"
                (set_name randomFieldName
                   (set_type "text" (createElement "input"))))))).

Definition setupHoneypot (i : nat) (rnd : nat) (w : World) : World :=
  match forms w !! i with
  | None => w
  | Some config =>
      if negb FORM_CONFIG.enableHoneypot then w
      else
        match querySelector (formElement config) Sel.honeypot w with
        | Some existingHoneypot => w
        | None =>
            insert_first_child (formElement config) (honeypot_element rnd) w
        end
  end.

(** The hidden page-URL input. *)
Definition page_url_element (href : string) : Element :=
  setAttribute FORM_CONFIG.fieldTypeAttribute "system-metadata"
    (setAttribute "data-page-url" "true"
       (set_value href
          (set_name FORM_CONFIG.pageUrlField_fieldName
             (set_type "hidden" (createElement "input"))))).

Definition setupPageUrlField (i : nat) (w : World) : World :=
  match forms w !! i with
  | None => w
  | Some config =>
      if negb FORM_CONFIG.pageUrlField_enabled then w
      else
        match querySelector (formElement config) Sel.pageUrl w with
        | Some existingPageUrlField =>
            update_element existingPageUrlField (set_value (href w)) w
        | None =>
            insert_first_child (formElement config)
              (page_url_element (href w)) w
        end
  end.

(* ================================================================== *)
(** * ConfigValidator and setup *)
(* ================================================================== *)

Record FieldDescriptor : Type := mkField {
  fd_name : option string;
  fd_type : option string;
  fd_data : option string;
}.

Record Validation : Type := mkValidation {
  valid : bool;
  errors : list string;
  configuredFields : list FieldDescriptor;
}.

Definition validate_field (acc : list string * list FieldDescriptor)
    (field : Element) : list string * list FieldDescriptor :=
  let fieldType := getAttribute FORM_CONFIG.fieldTypeAttribute field in
  let fieldData := getAttribute FORM_CONFIG.fieldDataAttribute field in
  let fieldName := getAttribute "name" field in
  let errors1 :=
    if negb (truthy fieldType)
    then acc.1 ++ ["Field " +:+ dquote +:+ interpolate fieldName +:+ dquote +:+ " missing "
                     +:+ FORM_CONFIG.fieldTypeAttribute +:+ " attribute"]
    else acc.1 in
  let errors2 :=
    if negb (truthy fieldData)
       && bool_decide (fieldType ≠ Some "ignore")
       && bool_decide (fieldType ≠ Some "system-metadata")
    then errors1 ++ ["Field " +:+ dquote +:+ interpolate fieldName +:+ dquote +:+ " missing "
                       +:+ FORM_CONFIG.fieldDataAttribute +:+ " attribute"]
    else errors1 in
  let errors3 :=
    if negb (truthy fieldName)
    then errors2 ++ ["Field with type " +:+ dquote +:+ interpolate fieldType
                       +:+ dquote +:+ " missing name attribute"]
    else errors2 in
  (errors3, acc.2 ++ [mkField fieldName fieldType fieldData]).

Definition validateFieldConfiguration (f : nat) (w : World) : Validation :=
  let r :=
    foldl validate_field ([], [])
      (deref w (querySelectorAll f Sel.fieldType w)) in
  mkValidation (bool_decide (length r.1 = 0)) r.1 r.2.

(** [rnd] is the random draw [setupHoneypot] consumes. *)
Definition setupSingleForm (f : nat) (rnd : nat) (w : World) : World :=
  match elements w !! f with
  | None => w
  | Some formElement =>
      let config :=
        mkConfig
          (getAttribute FORM_CONFIG.formIdAttribute formElement)
          (getAttribute FORM_CONFIG.formPurposeAttribute formElement)
          (getAttribute FORM_CONFIG.siteKeyAttribute formElement)
          f
          (querySelector f Sel.submitButton w)
          (querySelector f Sel.submitLabel w)
          (querySelector f Sel.errorElement w)
          (querySelector f Sel.errorText w)
          (document_querySelector Sel.successElement w)
          None None None in
      if negb (truthy (siteKey config)) || negb (truthy (formPurpose config))
      then w
      else if negb (valid (validateFieldConfiguration f w)) then w
      else
        let i := length (forms w) in
        let w1 := set_forms (forms w ++ [config]) w in
        let w2 := setupHoneypot i rnd w1 in
        let w3 := setupPageUrlField i w2 in
        let w4 := loadTurnstile (RenderTurnstile i) w3 in
        setupFormSubmission i w4
  end.

(** [setupForms]: the forms are found first, then set up one by one; [rnds]
    are the random draws, one per form. *)
Definition setupForms (rnds : list nat) (w : World) : World :=
  let formElements := document_querySelectorAll Sel.form w in
  foldl (λ w' fr, setupSingleForm fr.1 fr.2 w') w
        (zip formElements (rnds ++ replicate (length formElements) 0)).

(* ================================================================== *)
(** * A sample page *)
(* ================================================================== *)

Module Sample.

(** An element as the page author writes it. *)
Definition html (tag : string) (attrs : list (string * string)) (inner : string)
  : Element :=
  mkElement tag attrs
    (if decide (tag = "input") then default "text" (assoc "type" attrs)
     else if decide (tag = "textarea") then "textarea"
     else if decide (tag = "select") then "select-one"
     else if decide (tag = "button") then default "submit" (assoc "type" attrs)
     else "")
    (default "" (assoc "value" attrs))
    (bool_decide (is_Some (assoc "checked" attrs)))
    false inner inner
    (match assoc "class" attrs with Some c => [c] | None => [] end)
    [].

(** Two forms and one success region:
<<
  <html>                                                        0
    <form cf-form="contact" cf-form-purpose=.. cf-turnstile-sitekey=..>   1
      <input type="email" name="email" cf-field-type=.. cf-field-data=..> 2
      <input type="checkbox" name="agree" checked>                        3
      <input type="radio" name="plan" value="basic">                      4
      <input type="radio" name="plan" value="pro">                        5
      <input type="button" name="helper" value="Help">                    6
      <div cf-form-submit="trigger">                                      7
        <span cf-form-submit="button-label">Submit</span>                 8
      </div>
      <div cf-form-submit="error" class="hide">                           9
        <span cf-form-submit="error-text"></span>                         10
      </div>
    </form>
    <div cf-form-submit="success"></div>                                  11
    <form cf-form="news" cf-form-purpose=.. cf-turnstile-sitekey=..>      12
      <input type="text" name="q" cf-field-type=.. cf-field-data=..>      13
      <div cf-form-submit="trigger"></div>                                14
    </form>
  </html>
>> *)
Definition tree : Tree :=
  Node 0
    [ Node 1 [ Node 2 []; Node 3 []; Node 4 []; Node 5 []; Node 6 [];
               Node 7 [ Node 8 [] ]; Node 9 [ Node 10 [] ] ];
      Node 11 [];
      Node 12 [ Node 13 []; Node 14 [] ] ].

Definition heap : gmap nat Element :=
  list_to_map
    [ (0, html "html" [] "");
      (1, html "form" [("cf-form", "contact");
                       ("cf-form-purpose", "Contact the sales team");
                       ("cf-turnstile-sitekey", "0x4AAAA-site")] "");
      (2, html "input" [("type", "email"); ("name", "email");
                        ("value", "a@b.example");
                        ("cf-field-type", "email");
                        ("cf-field-data", "work email address")] "");
      (3, html "input" [("type", "checkbox"); ("name", "agree");
                        ("checked", "")] "");
      (4, html "input" [("type", "radio"); ("name", "plan");
                        ("value", "basic")] "");
      (5, html "input" [("type", "radio"); ("name", "plan");
                        ("value", "pro")] "");
      (6, html "input" [("type", "button"); ("name", "helper");
                        ("value", "Help")] "");
      (7, html "div" [("cf-form-submit", "trigger")] "");
      (8, html "span" [("cf-form-submit", "button-label")] "Submit");
      (9, html "div" [("cf-form-submit", "error"); ("class", "hide")] "");
      (10, html "span" [("cf-form-submit", "error-text")] "");
      (11, html "div" [("cf-form-submit", "success")] "");
      (12, html "form" [("cf-form", "news");
                        ("cf-form-purpose", "Newsletter sign-up");
                        ("cf-turnstile-sitekey", "0x4AAAA-site")] "");
      (13, html "input" [("type", "text"); ("name", "q"); ("value", "hello");
                         ("cf-field-type", "text");
                         ("cf-field-data", "free text")] "");
      (14, html "div" [("cf-form-submit", "trigger")] "") ].

Definition browser : Env :=
  mkEnv 1700000000000 1699999990000 "Mozilla/5.0" "" "Europe/Paris".

(** The page when the script starts: nothing registered, provider absent. *)
Definition page : World :=
  mkWorld tree heap [] false [] [] [] [] [] []
          "https://example.com/contact" browser.

(** After [setupForms], the provider script loaded, widgets rendered. *)
Definition ready : World :=
  script_loaded 1 (script_loaded 0 (setupForms [3; 5] page)).

(** The first form holds a token. *)
Definition tokened : World := token_callback 0 "tok-123" ready.

(** A form the author wrote with two inputs named "Page URL":
<<
  <html>                                              0
    <form cf-form="f" ..>                             1
      <input type="hidden" name="Page URL">           2
      <input type="hidden" name="Page URL">           3
    </form>
  </html>
>> *)
Definition authored : World :=
  mkWorld (Node 0 [Node 1 [Node 2 []; Node 3 []]])
    (list_to_map
       [ (0, html "html" [] "");
         (1, html "form" [("cf-form", "f"); ("cf-form-purpose", "Feedback");
                          ("cf-turnstile-sitekey", "0x4AAAA-site")] "");
         (2, html "input" [("type", "hidden"); ("name", "Page URL")] "");
         (3, html "input" [("type", "hidden"); ("name", "Page URL")] "") ])
    [] false [] [mkConfig (Some "f") (Some "Feedback") (Some "0x4AAAA-site") 1
                          None None None None None None None None]
    [] [] [] [] "https://example.com/feedback" browser.

End Sample.

(* ================================================================== *)
(** * Observations used in the statements *)
(* ================================================================== *)

(** The message is displayed inline: the error-text element carries it and
    the error region is revealed. *)
Definition shown_inline (ee et : nat) (message : string) (w : World) : Prop :=
  textContent <$> elements w !! et = Some message
  ∧ ∀ e, elements w !! ee = Some e → FORM_CONFIG.hideClass ∉ classList e.

(** The message reaches the user through [w ~> w']: inline when the
    registration has both error elements, by [alert] otherwise. *)
Definition message_shown (config : Config) (message : string)
    (w w' : World) : Prop :=
  match errorElement config, errorText config with
  | Some ee, Some et => shown_inline ee et message w'
  | _, _ => alerts w' = alerts w ++ [message]
  end.



(** The trap-injection part of [setupSingleForm]: the honeypot, then the
    page-URL field. *)
Definition setupTraps (i : nat) (rnd : nat) (w : World) : World :=
  setupPageUrlField i (setupHoneypot i rnd w).

(** How many descendants of the form of [config] match a selector. *)
Definition count_fields (s : Selector) (config : Config) (w : World) : nat :=
  length (querySelectorAll (formElement config) s w).

(** The first child-list entry that contains reference [r]. *)
Fixpoint find_in (r : nat) (l : list Tree) : option Tree :=
  match l with
  | [] => None
  | k :: l' =>
      match find_node r k with
      | Some s => Some s
      | None => find_in r l'
      end
  end.

(** The part of a registration that is fixed at setup: identity and element
    references, without token, widget handle and stored label text. *)
Definition static (c : Config) : Config :=
  mkConfig (formId c) (formPurpose c) (siteKey c) (formElement c)
           (submitButton c) (submitLabel c) (errorElement c) (errorText c)
           (successElement c) None None None.

(** The elements a registration refers to. *)
Definition own_refs (c : Config) : list nat :=
  formElement c
    :: omap id [submitButton c; submitLabel c; errorElement c; errorText c;
                successElement c].

Definition owned (c : Config) : nat → Prop := λ r, r ∈ own_refs c.



(** [w ~> w'] is confined to registration [i] and to the elements in [R]:
    every other registration is as before, registration [i] keeps its static
    part, and every element object of [w] outside [R] is as before. *)
Definition framed (i : nat) (R : nat → Prop) (w w' : World) : Prop :=
  (∀ j, j ≠ i → forms w' !! j = forms w !! j)
  ∧ (∀ c, forms w !! i = Some c →
       ∃ c', forms w' !! i = Some c' ∧ static c' = static c)
  ∧ (∀ r, ¬ R r → is_Some (elements w !! r) →
       elements w' !! r = elements w !! r)
  ∧ (∀ r, is_Some (elements w !! r) → is_Some (elements w' !! r)).



(** A radio control that is not checked. *)
Definition unchecked_radio (input : Element) : Prop :=
  type input = "radio" ∧ checked input = false.

#[global] Instance unchecked_radio_dec input : Decision (unchecked_radio input).
Proof. unfold unchecked_radio. apply _. Defined.

(** The capture-phase listener of [setupFormSubmission]. *)
Definition is_backstop (l : Listener) : Prop := handler l = BackstopSubmit.

#[global] Instance is_backstop_dec l : Decision (is_backstop l).
Proof. unfold is_backstop. destruct (handler l); [right|left]; done. Defined.

(** The elements [validateFieldConfiguration] inspects: the descendants of
    the form that carry the field-type attribute. *)
Definition annotated_fields (f : nat) (w : World) : list Element :=
  deref w (querySelectorAll f Sel.fieldType w).

(** A field that [validateFieldConfiguration] reports no error for. *)
Definition field_ok (field : Element) : Prop :=
  truthy (getAttribute FORM_CONFIG.fieldTypeAttribute field) = true
  ∧ (truthy (getAttribute FORM_CONFIG.fieldDataAttribute field) = true
     ∨ getAttribute FORM_CONFIG.fieldTypeAttribute field = Some "ignore"
     ∨ getAttribute FORM_CONFIG.fieldTypeAttribute field
       = Some "system-metadata")
  ∧ truthy (getAttribute "name" field) = true.

#[global] Instance field_ok_dec field : Decision (field_ok field).
Proof. unfold field_ok. apply _. Defined.

Definition descriptor (field : Element) : FieldDescriptor :=
  mkField (getAttribute "name" field)
          (getAttribute FORM_CONFIG.fieldTypeAttribute field)
          (getAttribute FORM_CONFIG.fieldDataAttribute field).

(** A form element that passes both checks of [setupSingleForm]. *)
Definition registrable (formEl : Element) (f : nat) (w : World) : Prop :=
  truthy (getAttribute FORM_CONFIG.siteKeyAttribute formEl) = true
  ∧ truthy (getAttribute FORM_CONFIG.formPurposeAttribute formEl) = true
  ∧ Forall field_ok (annotated_fields f w).

#[global] Instance registrable_dec formEl f w :
  Decision (registrable formEl f w).
Proof. unfold registrable. apply _. Defined.

(** Everything in the world but the DOM: the registrations and the record of
    what the script has asked of the browser and of the provider. *)
Definition shell (w : World) :=
  (forms w, listeners w, turnstile w, headScripts w, turnstileCalls w,
   timers w, alerts w, requests w, href w).

(** The two listeners [setupFormSubmission] registers for registration [i]
    on form element [f]. *)
Definition submit_listeners (i f : nat) : list Listener :=
  [mkListener f false (PrimarySubmit i); mkListener f true BackstopSubmit].

(** The script element [loadTurnstile] appends for registration [i]. *)
Definition provider_script (i : nat) : Script :=
  mkScript "https://challenges.cloudflare.com/turnstile/v0/api.js"
           true true (RenderTurnstile i).

(** The [display] style property of an element. *)
Definition display (e : Element) : option string := assoc "display" (style e).

(** The message [handleFormSubmit] shows for an outcome that is not a
    success. *)
Definition failure_message (o : Outcome) : string :=
  match o with
  | Resolved result =>
      if truthy (error result ≫= id) then default "" (error result ≫= id)
      else "Something went wrong. Please try again."
  | Rejected => "Network error. Please check your connection and try again."
  end.

Definition failed (o : Outcome) : Prop :=
  match o with
  | Resolved result => success result = false
  | Rejected => True
  end.

(** The [render] calls among the calls made on the provider. *)
Definition is_render (c : TurnstileCall) : Prop :=
  match c with TsRender _ _ _ => True | TsReset _ => False end.

#[global] Instance is_render_dec c : Decision (is_render c).
Proof. destruct c; simpl; apply _. Defined.

(** How much [w ~> w'] adds to what the script has set up: [n]
    registrations, two listeners for each, and for each one load of the
    provider, a script element while the provider is undefined, a [render]
    call once it is defined; nothing else is asked of the browser. *)
Definition setup_adds (n : nat) (w w' : World) : Prop :=
  length (forms w') = length (forms w) + n
  ∧ length (listeners w') = length (listeners w) + 2 * n
  ∧ turnstile w' = turnstile w
  ∧ length (headScripts w')
    = length (headScripts w) + (if turnstile w then 0 else n)
  ∧ length (filter is_render (turnstileCalls w'))
    = length (filter is_render (turnstileCalls w))
      + (if turnstile w then n else 0)
  ∧ timers w' = timers w
  ∧ alerts w' = alerts w
  ∧ requests w' = requests w.

(** An element update that leaves alone everything [collectFormData] and
    the attribute and tag selectors read. *)
Definition keeps_control (f : Element → Element) : Prop :=
  ∀ e, tagName (f e) = tagName e
       ∧ attributes (f e) = attributes e
       ∧ type (f e) = type e
       ∧ value (f e) = value e
       ∧ checked (f e) = checked e.

(** Two worlds with the same controls: the same document tree, and element
    objects that agree on what [collectFormData] and the attribute and tag
    selectors read. *)
Definition same_controls (w w' : World) : Prop :=
  document w' = document w
  ∧ ∀ r, match elements w !! r, elements w' !! r with
         | Some e, Some e' =>
             tagName e' = tagName e ∧ attributes e' = attributes e
             ∧ type e' = type e ∧ value e' = value e
             ∧ checked e' = checked e
         | None, None => True
         | _, _ => False
         end.

Definition is_class_selector (s : Selector) : Prop :=
  match s with SelClass _ => True | _ => False end.

(** The marker attribute value of the element behind a reference. *)
Definition marker (w : World) (r : nat) : option string :=
  elements w !! r ≫= getAttribute "cf-form-submit".

(** The references of a registration that are looked up inside its form. *)
Definition form_scoped_refs (c : Config) : list nat :=
  omap id [submitButton c; submitLabel c; errorElement c; errorText c].

(* ================================================================== *)
(** * Properties: UIStatePresenter *)
(* ================================================================== *)

Section Presenter.

Variables (i : nat) (config : Config).

Lemma textContent_classList_remove c e :
  textContent (classList_remove c e) = textContent e.
Proof. reflexivity. Qed.

Lemma classList_remove_absent c e : c ∉ classList (classList_remove c e).
Proof.
  unfold classList_remove; simpl. rewrite list_elem_of_filter. tauto.
Qed.

Lemma showError_inline (message : string) (w : World) (ee et : nat) :
  forms w !! i = Some config →
  errorElement config = Some ee →
  errorText config = Some et →
  is_Some (elements w !! et) →
  shown_inline ee et message (showError i message w).
Proof.
  intros Hreg Hee Het [e He]. unfold showError, shown_inline.
  rewrite Hreg, Hee, Het. simpl. split.
  - rewrite lookup_alter. case_decide as Heq.
    + subst. rewrite lookup_alter_eq, He. reflexivity.
    + rewrite lookup_alter_eq, He. reflexivity.
  - intros e'. rewrite lookup_alter_eq.
    destruct (alter _ et (elements w) !! ee) as [e0|]; simpl; [|done].
    intros [= <-]. apply classList_remove_absent.
Qed.

Lemma showError_alert (message : string) (w : World) :
  forms w !! i = Some config →
  errorElement config = None ∨ errorText config = None →
  showError i message w = set_alerts (alerts w ++ [message]) w.
Proof.
  intros Hreg Hnone. unfold showError. rewrite Hreg.
  destruct (errorElement config), (errorText config); try reflexivity.
  destruct Hnone; discriminate.
Qed.

Lemma showError_shown (message : string) (w : World) :
  forms w !! i = Some config →
  (∀ et, errorText config = Some et → is_Some (elements w !! et)) →
  message_shown config message w (showError i message w).
Proof.
  intros Hreg Hex. unfold message_shown.
  destruct (errorElement config) as [ee|] eqn:Hee;
    destruct (errorText config) as [et|] eqn:Het.
  - apply showError_inline; auto.
  - rewrite showError_alert; auto.
  - rewrite showError_alert; auto.
  - rewrite showError_alert; auto.
Qed.

(** C10.  [showError] always surfaces the message: when the registration
    lacks the error region or the error-text element it calls [alert] with
    the message (and touches no element); when it has both, the error-text
    element receives the message and the region is revealed.  [hideError]
    changes nothing when the error region is absent.  ([Hobj]: the
    error-text reference, when present, is an element object.) *)
Theorem showError_surfaces_message (message : string) (w : World)
    (Hreg : forms w !! i = Some config)
    (Hobj : ∀ et, errorText config = Some et → is_Some (elements w !! et)) :
  message_shown config message w (showError i message w)
  ∧ (errorElement config = None ∨ errorText config = None →
     alerts (showError i message w) = alerts w ++ [message]
     ∧ elements (showError i message w) = elements w)
  ∧ (errorElement config = None → hideError i w = w).
Proof.
  split; [by apply showError_shown|]. split.
  - intros Hnone. by rewrite showError_alert.
  - intros Hnone. unfold hideError. by rewrite Hreg, Hnone.
Qed.

End Presenter.

(** C10 at the second sample form, which has no error region. *)
Lemma showError_surfaces_message_witness :
  Sample.ready.(forms) !! 1 = Some (mkConfig (Some "news")
      (Some "Newsletter sign-up") (Some "0x4AAAA-site") 12 (Some 14) None
      None None (Some 11) None (Some 2) None)
  ∧ alerts (showError 1 "Oops" Sample.ready) = ["Oops"]
  ∧ hideError 1 Sample.ready = Sample.ready.
Proof.
  assert (Hreg : Sample.ready.(forms) !! 1 = Some (mkConfig (Some "news")
      (Some "Newsletter sign-up") (Some "0x4AAAA-site") 12 (Some 14) None
      None None (Some 11) None (Some 2) None)) by (vm_compute; reflexivity).
  split; [exact Hreg|].
  destruct (showError_surfaces_message 1 _ "Oops" Sample.ready Hreg)
    as (_ & Halert & Hhide).
  { intros et [=]. }
  split.
  - apply Halert. by left.
  - by apply Hhide.
Defined.

(** ** What the presenter's element updates leave alone *)

Lemma alter_preserves {A B} (g : A → B) (f : A → A) (m : gmap nat A) r x :
  (∀ e, g (f e) = g e) → g <$> alter f r m !! x = g <$> m !! x.
Proof.
  intros Hg. rewrite lookup_alter. case_decide; [subst|done].
  destruct (m !! x); simpl; [by rewrite Hg|done].
Qed.

Lemma disabled_classList_add c e : disabled (classList_add c e) = disabled e.
Proof. unfold classList_add. by case_bool_decide. Qed.

Lemma innerHTML_classList_add c e :
  innerHTML (classList_add c e) = innerHTML e.
Proof. unfold classList_add. by case_bool_decide. Qed.

Lemma hideError_forms i w : forms (hideError i w) = forms w.
Proof.
  unfold hideError. destruct (forms w !! i) as [c|]; [|done].
  by destruct (errorElement c).
Qed.

Lemma hideError_alerts i w : alerts (hideError i w) = alerts w.
Proof.
  unfold hideError. destruct (forms w !! i) as [c|]; [|done].
  by destruct (errorElement c).
Qed.

Lemma hideError_requests i w : requests (hideError i w) = requests w.
Proof.
  unfold hideError. destruct (forms w !! i) as [c|]; [|done].
  by destruct (errorElement c).
Qed.

Lemma hideError_is_Some i w r :
  is_Some (elements (hideError i w) !! r) ↔ is_Some (elements w !! r).
Proof.
  unfold hideError. destruct (forms w !! i) as [c|]; [|done].
  destruct (errorElement c); [|done]. simpl. apply lookup_alter_is_Some.
Qed.

Lemma hideError_disabled i w r :
  disabled <$> elements (hideError i w) !! r = disabled <$> elements w !! r.
Proof.
  unfold hideError. destruct (forms w !! i) as [c|]; [|done].
  destruct (errorElement c); [|done]. simpl.
  apply alter_preserves, disabled_classList_add.
Qed.

Lemma hideError_innerHTML i w r :
  innerHTML <$> elements (hideError i w) !! r = innerHTML <$> elements w !! r.
Proof.
  unfold hideError. destruct (forms w !! i) as [c|]; [|done].
  destruct (errorElement c); [|done]. simpl.
  apply alter_preserves, innerHTML_classList_add.
Qed.

Lemma showError_forms i m w : forms (showError i m w) = forms w.
Proof.
  unfold showError. destruct (forms w !! i) as [c|]; [|done].
  by destruct (errorElement c), (errorText c).
Qed.

Lemma showError_requests i m w : requests (showError i m w) = requests w.
Proof.
  unfold showError. destruct (forms w !! i) as [c|]; [|done].
  by destruct (errorElement c), (errorText c).
Qed.

Lemma showError_disabled i m w r :
  disabled <$> elements (showError i m w) !! r = disabled <$> elements w !! r.
Proof.
  unfold showError. destruct (forms w !! i) as [c|]; [|done].
  destruct (errorElement c), (errorText c); try done. simpl.
  by rewrite !alter_preserves.
Qed.

Lemma showError_innerHTML i m w r :
  innerHTML <$> elements (showError i m w) !! r
  = innerHTML <$> elements w !! r.
Proof.
  unfold showError. destruct (forms w !! i) as [c|]; [|done].
  destruct (errorElement c), (errorText c); try done. simpl.
  by rewrite !alter_preserves.
Qed.

Lemma message_shown_after_hideError i config message w w' :
  message_shown config message (hideError i w) w' →
  message_shown config message w w'.
Proof.
  unfold message_shown.
  destruct (errorElement config), (errorText config);
    by rewrite ?hideError_alerts.
Qed.

(* ================================================================== *)
(** * Properties: SubmissionController, the token precondition *)
(* ================================================================== *)

(** C1.  A submission attempted while the registration's token is [null]:
    no request is issued, no loading state is entered (the registration is
    unchanged, so no label text is captured, and no element changes its
    [disabled] flag or its [innerHTML]), and the verification-required
    message is shown.  ([Hobj]: the error-text reference of the
    registration, when it has one, is an element object.) *)
Theorem handleFormSubmit_without_token (i : nat) (config : Config) (w : World)
    (Hreg : forms w !! i = Some config)
    (Htoken : turnstileToken config = None)
    (Hobj : ∀ et, errorText config = Some et → is_Some (elements w !! et)) :
  requests (handleFormSubmit i w) = requests w
  ∧ forms (handleFormSubmit i w) = forms w
  ∧ (∀ r, disabled <$> elements (handleFormSubmit i w) !! r
          = disabled <$> elements w !! r)
  ∧ (∀ r, innerHTML <$> elements (handleFormSubmit i w) !! r
          = innerHTML <$> elements w !! r)
  ∧ message_shown config "Please complete the security verification."
      w (handleFormSubmit i w).
Proof.
  unfold handleFormSubmit. rewrite hideError_forms, Hreg, Htoken. simpl.
  split; [by rewrite showError_requests, hideError_requests|].
  split; [by rewrite showError_forms, hideError_forms|].
  split; [intros r; by rewrite showError_disabled, hideError_disabled|].
  split; [intros r; by rewrite showError_innerHTML, hideError_innerHTML|].
  apply (message_shown_after_hideError i), showError_shown.
  - by rewrite hideError_forms.
  - intros et Het. apply hideError_is_Some. by apply Hobj.
Qed.

(** C1 on the sample page, before any token has arrived. *)
Lemma handleFormSubmit_without_token_witness :
  requests (handleFormSubmit 0 Sample.ready) = []
  ∧ textContent <$> elements (handleFormSubmit 0 Sample.ready) !! 10
    = Some "Please complete the security verification.".
Proof.
  destruct (handleFormSubmit_without_token 0
              (mkConfig (Some "contact") (Some "Contact the sales team")
                 (Some "0x4AAAA-site") 1 (Some 7) (Some 8) (Some 9) (Some 10)
                 (Some 11) None (Some 1) None) Sample.ready)
    as (Hreq & _ & _ & _ & Hshown & _).
  - vm_compute; reflexivity.
  - reflexivity.
  - intros et [= <-]. vm_compute. eauto.
  - split; [exact Hreq | exact Hshown].
Defined.

(* ================================================================== *)
(** * Properties: the loading presentation *)
(* ================================================================== *)







(* ================================================================== *)
(** * Properties: submit events on a form that fails validation *)
(* ================================================================== *)

(** With [checkValidity()] false, running any listeners of this script
    changes nothing in the world and stops no propagation; the default action
    is prevented as soon as one of them is the backstop. *)
Lemma invalid_submit_listeners (ls : list Listener) (e : Event) (w : World) :
  immediatePropagationStopped e = false →
  foldl (λ s l, if immediatePropagationStopped (s.1) then s
                else run_handler false (handler l) s) (e, w) ls
  = (if bool_decide (Exists is_backstop ls) then preventDefault e else e, w).
Proof.
  revert e. induction ls as [|l ls IH]; intros e He; simpl.
  - done.
  - rewrite He. destruct (handler l) eqn:Hl; simpl.
    + rewrite IH by done.
      assert (Exists is_backstop (l :: ls) ↔ Exists is_backstop ls) as Hiff.
      { rewrite Exists_cons. unfold is_backstop at 1. rewrite Hl.
        split; [by intros [?|?]|by right]. }
      by rewrite (bool_decide_ext _ _ Hiff).
    + rewrite IH by done.
      rewrite (bool_decide_true (Exists _ (l :: ls))) by (by left).
      by case_bool_decide.
Qed.

Lemma listeners_in_order_Exists (o : TargetOrder) (P : Listener → Prop)
    (ls : list Listener) :
  Exists P (listeners_in_order o ls) ↔ Exists P ls.
Proof.
  destruct o; simpl; [|done].
  rewrite Exists_app, !Exists_exists. split.
  - intros [(l & Hl & HP)|(l & Hl & HP)];
      apply list_elem_of_filter in Hl; destruct Hl; eauto.
  - intros (l & Hl & HP). destruct (useCapture l) eqn:Hc.
    + left. exists l. by rewrite list_elem_of_filter.
    + right. exists l. by rewrite list_elem_of_filter.
Qed.

(** C3, as the code has it.  On a wired form that fails constraint
    validation, the first listener does nothing at all (the event and the
    world are left as they are), no controlled submission starts and
    propagation is not stopped; but the capture-phase backstop listener still
    calls [preventDefault], so the event leaves the form's listeners with its
    default action suppressed.  This holds for either order in which a
    browser runs the two listeners. *)
Theorem invalid_submit_still_prevented (o : TargetOrder) (i : nat)
    (config : Config) (w : World)
    (Hreg : forms w !! i = Some config) :
  run_handler false (PrimarySubmit i) (submit_event, setupFormSubmission i w)
    = (submit_event, setupFormSubmission i w)
  ∧ dispatch_submit o (formElement config) false (setupFormSubmission i w)
    = (mkEvent true false false, setupFormSubmission i w).
Proof.
  split; [done|].
  unfold dispatch_submit. rewrite invalid_submit_listeners by done.
  rewrite bool_decide_true; [done|].
  apply listeners_in_order_Exists, Exists_exists.
  exists (mkListener (formElement config) true BackstopSubmit).
  split; [|done]. apply list_elem_of_filter. split; [done|].
  unfold setupFormSubmission. rewrite Hreg. simpl.
  rewrite !elem_of_app, !elem_of_cons. naive_solver.
Qed.

(** C3 at the first sample form. *)
Lemma invalid_submit_still_prevented_witness :
  dispatch_submit CaptureFirst 1 false (setupFormSubmission 0 Sample.ready)
  = (mkEvent true false false, setupFormSubmission 0 Sample.ready).
Proof.
  refine (proj2 (invalid_submit_still_prevented CaptureFirst 0
              (mkConfig (Some "contact") (Some "Contact the sales team")
                 (Some "0x4AAAA-site") 1 (Some 7) (Some 8) (Some 9) (Some 10)
                 (Some 11) None (Some 1) None) Sample.ready _)).
  vm_compute; reflexivity.
Defined.

(** C3 as stated fails.  A submit event on the first sample form, with
    [checkValidity()] answering false, comes out with [defaultPrevented]
    set, in either listener order: the backstop listener has applied
    [preventDefault]. *)
Lemma invalid_submit_default_prevented :
  defaultPrevented (dispatch_submit CaptureFirst 1 false Sample.ready).1 = true
  ∧ defaultPrevented (dispatch_submit RegistrationOrder 1 false Sample.ready).1
    = true
  ∧ (dispatch_submit CaptureFirst 1 false Sample.ready).2 = Sample.ready.
Proof. vm_compute. repeat split; reflexivity. Qed.

(* ================================================================== *)
(** * Properties: FormDataCollector *)
(* ================================================================== *)

Section Collector.

Implicit Types (acc : Collected) (input e : Element) (n : string).













End Collector.



(* ================================================================== *)
(** * The document tree *)
(* ================================================================== *)

(** Induction on trees, with the hypothesis for every child. *)
Lemma Tree_forall_ind (P : Tree → Prop) :
  (∀ r ks, Forall P ks → P (Node r ks)) → ∀ t, P t.
Proof.
  intros HNode. fix IH 1. intros [r ks]. apply HNode.
  induction ks as [|k ks IHks]; constructor; [apply IH|apply IHks].
Qed.

Lemma find_node_unfold (r r' : nat) (ks : list Tree) :
  find_node r (Node r' ks)
  = if decide (r' = r) then Some (Node r' ks) else find_in r ks.
Proof.
  simpl. case_decide; [done|].
  induction ks as [|k ks IH]; [done|]. simpl. by rewrite IH.
Qed.


(** A tree without a node [p] is not changed by inserting under [p]. *)
Lemma prependChild_absent (p : nat) (new t : Tree) :
  find_node p t = None → prependChild p new t = t.
Proof.
  induction t as [r ks IH] using Tree_forall_ind.
  rewrite find_node_unfold. simpl. case_decide; [done|]. intros Hf. f_equal.
  induction IH as [|k ks Hk _ IHks]; [done|]. simpl in *.
  destruct (find_node p k) eqn:Hk'; [done|].
  by rewrite Hk, IHks.
Qed.

Lemma find_node_prependChild (p : nat) (new t s : Tree) :
  find_node p t = Some s →
  find_node p (prependChild p new t) = Some (Node p (new :: children_of s)).
Proof.
  revert s. induction t as [r ks IH] using Tree_forall_ind. intros s.
  rewrite find_node_unfold. simpl. case_decide as Hr.
  - intros [= <-]. subst. rewrite find_node_unfold. by rewrite decide_True.
  - rewrite find_node_unfold, decide_False by done.
    induction IH as [|k ks Hk _ IHks]; [done|]. simpl.
    destruct (find_node p k) as [s'|] eqn:Hk'.
    + intros [= <-]. by rewrite (Hk s').
    + intros Hs. rewrite prependChild_absent, Hk' by done. by apply IHks.
Qed.

Lemma descendants_prependChild (p r : nat) (t : Tree) :
  is_Some (find_node p t) →
  descendants p (prependChild p (Node r []) t) = r :: descendants p t.
Proof.
  intros [s Hs]. unfold descendants.
  by rewrite (find_node_prependChild _ _ _ _ Hs), Hs.
Qed.

Lemma find_node_preorder (r : nat) (t s : Tree) :
  find_node r t = Some s → preorder s ⊆ preorder t.
Proof.
  revert s. induction t as [r' ks IH] using Tree_forall_ind. intros s.
  rewrite find_node_unfold. case_decide; [by intros [= <-]|].
  intros Hs x Hx. simpl. right.
  induction IH as [|k ks Hk _ IHks]; [done|]. simpl in *.
  rewrite elem_of_app. destruct (find_node r k) eqn:Hf.
  - left. injection Hs as <-. by apply (Hk _ eq_refl).
  - right. by apply IHks.
Qed.

Lemma descendants_preorder (r x : nat) (t : Tree) :
  x ∈ descendants r t → x ∈ preorder t.
Proof.
  unfold descendants. destruct (find_node r t) as [s|] eqn:Hs.
  - intros Hx. apply (find_node_preorder _ _ _ Hs).
    destruct s as [r' ks]. simpl in *. by right.
  - by rewrite elem_of_nil.
Qed.

Lemma fresh_ref_tree (w : World) : fresh_ref w ∉ preorder (document w).
Proof.
  intros Hin. unfold fresh_ref in Hin.
  assert (Hle := max_list_elem_of_le _
    (preorder (document w) ++ (map_to_list (elements w)).*1)
    (proj2 (elem_of_app _ _ _) (or_introl Hin))).
  lia.
Qed.

Lemma fresh_ref_heap (w : World) : elements w !! fresh_ref w = None.
Proof.
  destruct (elements w !! fresh_ref w) as [e|] eqn:He; [|done].
  assert (Hin : fresh_ref w ∈ (map_to_list (elements w)).*1).
  { apply list_elem_of_fmap. exists (fresh_ref w, e).
    split; [done|]. by apply elem_of_map_to_list. }
  unfold fresh_ref in Hin at 1.
  assert (Hle := max_list_elem_of_le _
    (preorder (document w) ++ (map_to_list (elements w)).*1)
    (proj2 (elem_of_app _ _ _) (or_intror Hin))).
  lia.
Qed.

(* ================================================================== *)
(** * Properties: TrapInjector *)
(* ================================================================== *)

Lemma filter_ext_elem {A} (P Q : A → Prop)
    `{!∀ x, Decision (P x)} `{!∀ x, Decision (Q x)} (l : list A) :
  (∀ x, x ∈ l → P x ↔ Q x) → filter P l = filter Q l.
Proof.
  induction l as [|x l IH]; intros Hext; [done|].
  rewrite !filter_cons, IH by (intros y Hy; apply Hext; by right).
  assert (P x ↔ Q x) by (apply Hext; by left).
  repeat case_decide; tauto.
Qed.

Lemma querySelectorAll_insert_first (f : nat) (s : Selector) (el : Element)
    (w : World) :
  is_Some (find_node f (document w)) →
  querySelectorAll f s (insert_first_child f el w)
  = (if matches s el then [fresh_ref w] else []) ++ querySelectorAll f s w.
Proof.
  intros Hf. unfold querySelectorAll, insert_first_child. simpl.
  rewrite descendants_prependChild, filter_cons by done.
  rewrite (filter_ext_elem _ (selects w s)).
  - case_decide as Hs; unfold selects in Hs; simpl in Hs;
      rewrite lookup_insert_eq in Hs.
    + by rewrite Hs.
    + by destruct (matches s el).
  - intros x Hx. unfold selects. simpl. rewrite lookup_insert_ne; [done|].
    intros <-. by apply (fresh_ref_tree w), (descendants_preorder f).
Qed.

Lemma find_node_insert_first (f : nat) (el : Element) (w : World) :
  is_Some (find_node f (document w)) →
  is_Some (find_node f (document (insert_first_child f el w))).
Proof.
  intros [t Ht]. unfold insert_first_child. simpl.
  by rewrite (find_node_prependChild _ _ _ _ Ht).
Qed.

Lemma matches_set_value (s : Selector) (v : string) (e : Element) :
  matches s (set_value v e) = matches s e.
Proof. by destruct s. Qed.

Lemma querySelectorAll_set_value (f r : nat) (s : Selector) (v : string)
    (w : World) :
  querySelectorAll f s (update_element r (set_value v) w)
  = querySelectorAll f s w.
Proof.
  unfold querySelectorAll. simpl. apply list_filter_iff. intros x.
  unfold selects. simpl. rewrite lookup_alter. case_decide; [subst|done].
  destruct (elements w !! x); simpl; [|done]. by rewrite matches_set_value.
Qed.

Lemma honeypot_name_not_page_url (k : nat) :
  default "" (FORM_CONFIG.honeypotFieldNames !! k)
  ≠ FORM_CONFIG.pageUrlField_fieldName.
Proof. do 9 (destruct k as [|k]; [discriminate|]). discriminate. Qed.

Lemma honeypot_element_matches (rnd : nat) :
  matches Sel.honeypot (honeypot_element rnd) = true
  ∧ matches Sel.pageUrl (honeypot_element rnd) = false.
Proof.
  split; [reflexivity|].
  unfold honeypot_element, Sel.pageUrl, matches, getAttribute. simpl.
  by rewrite bool_decide_false by apply honeypot_name_not_page_url.
Qed.

Lemma page_url_element_matches (href : string) :
  matches Sel.pageUrl (page_url_element href) = true
  ∧ matches Sel.honeypot (page_url_element href) = false.
Proof. split; reflexivity. Qed.

Lemma querySelector_None_length (f : nat) (s : Selector) (w : World) :
  querySelector f s w = None → length (querySelectorAll f s w) = 0.
Proof. unfold querySelector. rewrite head_None. by intros ->. Qed.

Lemma querySelector_Some_length (f r : nat) (s : Selector) (w : World) :
  querySelector f s w = Some r → (1 ≤ length (querySelectorAll f s w))%nat.
Proof.
  unfold querySelector. rewrite head_Some. intros [l ->]. simpl. lia.
Qed.

Section Traps.

Variables (i : nat) (config : Config).

(** What [setupHoneypot] does to the two counts. *)
Lemma setupHoneypot_counts (rnd : nat) (w : World) :
  forms w !! i = Some config →
  is_Some (find_node (formElement config) (document w)) →
  let w' := setupHoneypot i rnd w in
  forms w' = forms w
  ∧ is_Some (find_node (formElement config) (document w'))
  ∧ count_fields Sel.honeypot config w'
    = 1 `max` count_fields Sel.honeypot config w
  ∧ count_fields Sel.pageUrl config w' = count_fields Sel.pageUrl config w.
Proof.
  intros Hreg Hdoc. unfold setupHoneypot, count_fields. rewrite Hreg. simpl.
  destruct (querySelector _ Sel.honeypot w) as [r|] eqn:Hq.
  - apply querySelector_Some_length in Hq. repeat split; try done. lia.
  - apply querySelector_None_length in Hq.
    split; [done|]. split; [by apply find_node_insert_first|].
    rewrite !querySelectorAll_insert_first by done.
    destruct (honeypot_element_matches rnd) as [-> ->]. simpl.
    split; [lia|done].
Qed.

(** What [setupPageUrlField] does to the two counts. *)
Lemma setupPageUrlField_counts (w : World) :
  forms w !! i = Some config →
  is_Some (find_node (formElement config) (document w)) →
  let w' := setupPageUrlField i w in
  forms w' = forms w
  ∧ is_Some (find_node (formElement config) (document w'))
  ∧ count_fields Sel.honeypot config w' = count_fields Sel.honeypot config w
  ∧ count_fields Sel.pageUrl config w'
    = 1 `max` count_fields Sel.pageUrl config w.
Proof.
  intros Hreg Hdoc. unfold setupPageUrlField, count_fields. rewrite Hreg.
  simpl. destruct (querySelector _ Sel.pageUrl w) as [r|] eqn:Hq.
  - apply querySelector_Some_length in Hq.
    rewrite !querySelectorAll_set_value. repeat split; try done. lia.
  - apply querySelector_None_length in Hq.
    split; [done|]. split; [by apply find_node_insert_first|].
    rewrite !querySelectorAll_insert_first by done.
    destruct (page_url_element_matches (href w)) as [-> ->]. simpl.
    split; [done|lia].
Qed.

Lemma setupTraps_counts (rnd : nat) (w : World) :
  forms w !! i = Some config →
  is_Some (find_node (formElement config) (document w)) →
  let w' := setupTraps i rnd w in
  forms w' = forms w
  ∧ is_Some (find_node (formElement config) (document w'))
  ∧ count_fields Sel.honeypot config w'
    = 1 `max` count_fields Sel.honeypot config w
  ∧ count_fields Sel.pageUrl config w'
    = 1 `max` count_fields Sel.pageUrl config w.
Proof.
  intros Hreg Hdoc. unfold setupTraps.
  destruct (setupHoneypot_counts rnd w Hreg Hdoc) as (Hf & Hd & Hh & Hp).
  destruct (setupPageUrlField_counts (setupHoneypot i rnd w)) as
    (Hf' & Hd' & Hh' & Hp'); [by rewrite Hf|done|].
  simpl. rewrite Hf', Hf, Hh', Hh, Hp', Hp. done.
Qed.

(** C5, as the code has it.  For a registered form that is in the document,
    running the trap-injection setup a second time (with any random draw)
    inserts nothing: the numbers of trap fields and of page-URL fields are
    those left by the first run.  The first run brings each number to one
    when the form had none and otherwise leaves it, so both are exactly one
    after two runs whenever the form as authored had at most one trap field
    and at most one page-URL field. *)
Theorem setupTraps_twice (rnd rnd' : nat) (w : World)
    (Hreg : forms w !! i = Some config)
    (Hdoc : is_Some (find_node (formElement config) (document w))) :
  let w1 := setupTraps i rnd w in
  let w2 := setupTraps i rnd' w1 in
  count_fields Sel.honeypot config w2 = count_fields Sel.honeypot config w1
  ∧ count_fields Sel.pageUrl config w2 = count_fields Sel.pageUrl config w1
  ∧ ((count_fields Sel.honeypot config w ≤ 1)%nat →
     count_fields Sel.honeypot config w2 = 1)
  ∧ ((count_fields Sel.pageUrl config w ≤ 1)%nat →
     count_fields Sel.pageUrl config w2 = 1).
Proof.
  destruct (setupTraps_counts rnd w Hreg Hdoc) as (Hf & Hd & Hh & Hp).
  destruct (setupTraps_counts rnd' (setupTraps i rnd w)) as
    (Hf' & Hd' & Hh' & Hp'); [by rewrite Hf|done|].
  simpl. rewrite Hh', Hp', Hh, Hp. repeat split; lia.
Qed.

End Traps.

(** C5 at the first sample form, before any setup. *)
Lemma setupTraps_twice_witness :
  count_fields Sel.honeypot
    (mkConfig None None None 1 None None None None None None None None)
    (setupTraps 0 4 (setupTraps 0 3
       (set_forms [mkConfig None None None 1 None None None None None None
                            None None] Sample.page))) = 1.
Proof.
  refine (proj1 (proj2 (proj2 (setupTraps_twice 0
            (mkConfig None None None 1 None None None None None None None None)
            3 4
            (set_forms [mkConfig None None None 1 None None None None None None
                                 None None] Sample.page) _ _))) _).
  - reflexivity.
  - vm_compute. eauto.
  - vm_compute. lia.
Defined.

(** C5 as stated fails.  The form of [Sample.authored] was written with two
    inputs named "Page URL".  Setup finds the first, refreshes its value and
    inserts nothing, so after two runs the form has two page-URL fields
    (and one trap field). *)
Lemma authored_fields_are_kept :
  let config := mkConfig (Some "f") (Some "Feedback") (Some "0x4AAAA-site") 1
                         None None None None None None None None in
  let w2 := setupTraps 0 6 (setupTraps 0 2 Sample.authored) in
  forms Sample.authored !! 0 = Some config
  ∧ count_fields Sel.pageUrl config w2 = 2
  ∧ count_fields Sel.honeypot config w2 = 1.
Proof. vm_compute. repeat split; reflexivity. Qed.

(* ================================================================== *)
(** * Confinement of the operations of one form *)
(* ================================================================== *)

Section Framing.

Variable i : nat.

Implicit Types (R : nat → Prop) (w : World) (c : Config).

Lemma framed_refl R w : framed i R w w.
Proof. repeat split; eauto. Qed.

Lemma framed_trans R w1 w2 w3 :
  framed i R w1 w2 → framed i R w2 w3 → framed i R w1 w3.
Proof.
  intros (Hf & Hs & He & Hx) (Hf' & Hs' & He' & Hx'). repeat split.
  - intros j Hj. by rewrite Hf', Hf.
  - intros c Hc. destruct (Hs c Hc) as (c' & Hc' & Hst).
    destruct (Hs' c' Hc') as (c'' & Hc'' & Hst'). exists c''.
    split; [done|congruence].
  - intros r Hr Hex. rewrite He' by (try rewrite He; auto). auto.
  - auto.
Qed.

Lemma framed_weaken (R R' : nat → Prop) w w' :
  (∀ r, R r → R' r) → framed i R w w' → framed i R' w w'.
Proof.
  intros HR (Hf & Hs & He & Hx). repeat split; auto.
Qed.

Lemma framed_update_element R w r (f : Element → Element) :
  R r → framed i R w (update_element r f w).
Proof.
  intros Hr. repeat split; simpl; eauto.
  - intros r' Hr' _. apply lookup_alter_ne. by intros ->.
  - intros r'. by rewrite lookup_alter_is_Some.
Qed.

Lemma framed_update_config R w (f : Config → Config) :
  (∀ c, static (f c) = static c) → framed i R w (update_config i f w).
Proof.
  intros Hf. repeat split; simpl; eauto.
  - intros j Hj. by apply list_lookup_alter_ne.
  - intros c Hc. exists (f c). by rewrite list_lookup_alter_eq, Hc.
Qed.

(** A step that touches neither [forms] nor [elements]. *)
Lemma framed_same R w w' :
  forms w' = forms w → elements w' = elements w → framed i R w w'.
Proof. intros Hf He. unfold framed. rewrite Hf, He. repeat split; eauto. Qed.

Lemma framed_new_element R w (el : Element) :
  framed i R w (set_elements (<[fresh_ref w := el]> (elements w)) w).
Proof.
  repeat split; simpl; eauto.
  - intros r _ [e He]. apply lookup_insert_ne. intros <-.
    by rewrite fresh_ref_heap in He.
  - intros r Hr. rewrite lookup_insert_is_Some. destruct Hr as [e He].
    right. split; [|eauto]. intros <-. by rewrite fresh_ref_heap in He.
Qed.

Lemma own_refs_static c c' : static c' = static c → own_refs c' = own_refs c.
Proof. unfold static, own_refs. intros [=]. congruence. Qed.

(** Sequencing two steps of the same registration. *)
Lemma framed_seq c w w1 w2 :
  forms w !! i = Some c →
  framed i (owned c) w w1 →
  (∀ c1, forms w1 !! i = Some c1 → framed i (owned c1) w1 w2) →
  framed i (owned c) w w2.
Proof.
  intros Hc H1 H2. destruct H1 as (Hf & Hs & He & Hx).
  destruct (Hs c Hc) as (c1 & Hc1 & Hst).
  apply (framed_trans _ _ w1); [done|].
  unfold owned. rewrite <- (own_refs_static _ _ Hst). by apply H2.
Qed.

Lemma owned_formElement c : owned c (formElement c).
Proof. unfold owned, own_refs. by left. Qed.

Lemma owned_submitButton c r : submitButton c = Some r → owned c r.
Proof.
  intros H. unfold owned, own_refs. rewrite H. simpl. set_solver.
Qed.

Lemma owned_submitLabel c r : submitLabel c = Some r → owned c r.
Proof.
  intros H. unfold owned, own_refs. rewrite H. simpl.
  destruct (submitButton c); simpl; set_solver.
Qed.

Lemma owned_errorElement c r : errorElement c = Some r → owned c r.
Proof.
  intros H. unfold owned, own_refs. rewrite H. simpl.
  destruct (submitButton c), (submitLabel c); simpl; set_solver.
Qed.

Lemma owned_errorText c r : errorText c = Some r → owned c r.
Proof.
  intros H. unfold owned, own_refs. rewrite H. simpl.
  destruct (submitButton c), (submitLabel c), (errorElement c); simpl;
    set_solver.
Qed.

Lemma owned_successElement c r : successElement c = Some r → owned c r.
Proof.
  intros H. unfold owned, own_refs. rewrite H. simpl.
  destruct (submitButton c), (submitLabel c), (errorElement c),
    (errorText c); simpl; set_solver.
Qed.

Lemma framed_set_document R w d : framed i R w (set_document d w).
Proof. by apply framed_same. Qed.
Lemma framed_set_headScripts R w x : framed i R w (set_headScripts x w).
Proof. by apply framed_same. Qed.
Lemma framed_set_turnstileCalls R w x :
  framed i R w (set_turnstileCalls x w).
Proof. by apply framed_same. Qed.
Lemma framed_set_listeners R w x : framed i R w (set_listeners x w).
Proof. by apply framed_same. Qed.
Lemma framed_set_timers R w x : framed i R w (set_timers x w).
Proof. by apply framed_same. Qed.
Lemma framed_set_alerts R w x : framed i R w (set_alerts x w).
Proof. by apply framed_same. Qed.
Lemma framed_set_requests R w x : framed i R w (set_requests x w).
Proof. by apply framed_same. Qed.

Create HintDb framing.

Hint Resolve owned_formElement owned_submitButton owned_submitLabel
  owned_errorElement owned_errorText owned_successElement : framing.

(** One primitive step, then chains of them, outermost step first. *)
Ltac framed_prim :=
  first
    [ apply framed_update_element; eauto with framing
    | apply framed_update_config; done
    | apply framed_new_element
    | apply framed_set_document
    | apply framed_set_headScripts
    | apply framed_set_turnstileCalls
    | apply framed_set_listeners
    | apply framed_set_timers
    | apply framed_set_alerts
    | apply framed_set_requests ].

Ltac framed_chain :=
  first
    [ apply framed_refl
    | framed_prim
    | eapply framed_trans; [|framed_prim]; framed_chain ].

(** A goal whose last step is an operation with a framing lemma [lem]. *)
Ltac framed_then lem :=
  match goal with
  | |- framed _ _ _ (?f ?w1) =>
      apply (framed_seq _ _ w1); [done| |intros ? ?; by apply lem]
  end.


Lemma disableSubmitButton_framed c w :
  forms w !! i = Some c → framed i (owned c) w (disableSubmitButton i w).
Proof.
  intros Hc. unfold disableSubmitButton. rewrite Hc.
  destruct (submitButton c) eqn:?; framed_chain.
Qed.


Lemma showError_framed c w m :
  forms w !! i = Some c → framed i (owned c) w (showError i m w).
Proof.
  intros Hc. unfold showError. rewrite Hc.
  destruct (errorElement c) eqn:?, (errorText c) eqn:?; framed_chain.
Qed.



Lemma turnstile_container_framed R c w :
  framed i R w (turnstile_container c w).2.
Proof.
  unfold turnstile_container.
  destruct (querySelector _ _ _); [apply framed_refl|].
  destruct (submitButton c); simpl; framed_chain.
Qed.


Lemma resetTurnstileOnError_framed c w :
  forms w !! i = Some c → framed i (owned c) w (resetTurnstileOnError i w).
Proof.
  intros Hc. unfold resetTurnstileOnError. rewrite Hc.
  destruct (turnstile w); [|framed_chain].
  eapply framed_trans; [|framed_prim].
  framed_then disableSubmitButton_framed. framed_chain.
Qed.







End Framing.

(* ================================================================== *)
(** * Confinement of setup *)
(* ================================================================== *)

Lemma turnstile_container_forms (c : Config) (w : World) :
  forms (turnstile_container c w).2 = forms w.
Proof.
  unfold turnstile_container. destruct (querySelector _ _ _); [done|].
  by destruct (submitButton c).
Qed.

(** [renderTurnstile] changes no existing element except the submit button. *)
Lemma renderTurnstile_touches_button (i : nat) (c : Config) (w : World) :
  forms w !! i = Some c →
  framed i (λ r, submitButton c = Some r) w (renderTurnstile i w).
Proof.
  intros Hc. unfold renderTurnstile, disableSubmitButton. rewrite Hc. simpl.
  rewrite list_lookup_alter_eq, turnstile_container_forms, Hc. simpl.
  destruct (submitButton c) as [sb|] eqn:Hsb.
  - eapply framed_trans; [|by apply framed_update_element].
    eapply framed_trans; [|by apply framed_update_element].
    eapply framed_trans; [|by apply framed_update_config].
    eapply framed_trans; [|apply framed_set_turnstileCalls].
    apply turnstile_container_framed.
  - eapply framed_trans; [|by apply framed_update_config].
    eapply framed_trans; [|apply framed_set_turnstileCalls].
    apply turnstile_container_framed.
Qed.

Lemma querySelector_descendant (f r : nat) (s : Selector) (w : World) :
  querySelector f s w = Some r → r ∈ descendants f (document w).
Proof.
  unfold querySelector, querySelectorAll. intros Hq.
  apply head_Some_elem_of, list_elem_of_filter in Hq. tauto.
Qed.

(** After a new first child that does not match [s], a [querySelector] for
    [s] still answers with a descendant the form had before. *)
Lemma querySelector_after_insert (f r : nat) (s : Selector) (el : Element)
    (w : World) :
  matches s el = false →
  querySelector f s (insert_first_child f el w) = Some r →
  r ∈ descendants f (document w).
Proof.
  intros Hm Hq. destruct (find_node f (document w)) as [t|] eqn:Hf.
  - unfold querySelector in Hq.
    rewrite querySelectorAll_insert_first, Hm in Hq by eauto.
    by apply (querySelector_descendant f r s w).
  - apply querySelector_descendant in Hq. unfold insert_first_child in Hq.
    simpl in Hq. rewrite prependChild_absent in Hq by done.
    unfold descendants in *. by rewrite Hf in *.
Qed.

Lemma setupSingleForm_framed (f rnd : nat) (w : World) :
  framed (length (forms w)) (λ r, r ∈ descendants f (document w))
         w (setupSingleForm f rnd w).
Proof.
  unfold setupSingleForm.
  destruct (elements w !! f) as [formEl|]; [|apply framed_refl].
  set (config := mkConfig _ _ _ _ _ _ _ _ _ _ _ _).
  destruct (negb (truthy (siteKey config)) || negb (truthy (formPurpose config)));
    [apply framed_refl|].
  destruct (negb (valid (validateFieldConfiguration f w)));
    [apply framed_refl|].
  set (i := length (forms w)).
  set (w0 := set_forms (forms w ++ [config]) w).
  assert (H0 : forms w0 !! i = Some config)
    by (simpl; by rewrite lookup_app_r, Nat.sub_diag by done).
  assert (Hw0 : framed i (λ r, r ∈ descendants f (document w)) w w0).
  { repeat split; simpl; eauto.
    - intros j Hj. destruct (decide (j < i)) as [Hlt|Hge].
      + by rewrite lookup_app_l.
      + rewrite !lookup_ge_None_2; [done|lia|].
        rewrite length_app. simpl. fold i. lia.
    - intros c Hc. apply lookup_lt_Some in Hc. fold i in Hc. lia. }
  (* the honeypot *)
  set (w1 := setupHoneypot i rnd w0).
  assert (H1 : forms w1 = forms w0 ∧
               framed i (λ r, r ∈ descendants f (document w)) w0 w1 ∧
               ∀ r, querySelector f Sel.pageUrl w1 = Some r →
                    r ∈ descendants f (document w)).
  { unfold w1, setupHoneypot. rewrite H0. simpl.
    destruct (querySelector f Sel.honeypot w0).
    - split; [done|]. split; [apply framed_refl|].
      intros r. apply querySelector_descendant.
    - split; [done|]. split.
      + eapply framed_trans; [apply framed_new_element|].
        apply framed_set_document.
      + intros r. apply (querySelector_after_insert f r _ _ w0).
        apply honeypot_element_matches. }
  destruct H1 as (Hf1 & Hw1 & Hq1).
  (* the page-URL field *)
  set (w2 := setupPageUrlField i w1).
  assert (H2 : forms w2 = forms w0 ∧
               framed i (λ r, r ∈ descendants f (document w)) w1 w2).
  { unfold w2, setupPageUrlField. rewrite Hf1, H0. simpl.
    destruct (querySelector f Sel.pageUrl w1) as [r|] eqn:Hq.
    - split; [done|]. apply framed_update_element. by apply Hq1.
    - split; [done|].
      eapply framed_trans; [apply framed_new_element|].
      apply framed_set_document. }
  destruct H2 as (Hf2 & Hw2).
  (* the provider script, or the widget *)
  set (w3 := loadTurnstile (RenderTurnstile i) w2).
  assert (H3 : framed i (λ r, r ∈ descendants f (document w)) w2 w3).
  { unfold w3, loadTurnstile. destruct (turnstile w2); simpl.
    - eapply framed_weaken;
        [|apply (renderTurnstile_touches_button i config); by rewrite Hf2].
      simpl. intros r. apply querySelector_descendant.
    - apply framed_set_headScripts. }
  (* the listeners *)
  eapply framed_trans; [|].
  { eapply framed_trans; [|exact H3].
    eapply framed_trans; [|exact Hw2].
    eapply framed_trans; [exact Hw0|exact Hw1]. }
  unfold setupFormSubmission. destruct (forms w3 !! i); [|apply framed_refl].
  apply framed_set_listeners.
Qed.

(* ================================================================== *)
(** * Properties: what one form's operations leave alone *)
(* ================================================================== *)




(* ================================================================== *)
(** * Properties: a failed verification *)
(* ================================================================== *)

Lemma setSubmitButtonLoading_false_forms (i : nat) (w : World) :
  forms (setSubmitButtonLoading i false w) = forms w.
Proof.
  unfold setSubmitButtonLoading. destruct (forms w !! i) as [c|]; [|done].
  destruct (submitButton c); [|done].
  destruct (submitLabel c); [|done]. by destruct (truthy _).
Qed.

Lemma disableSubmitButton_forms (i : nat) (w : World) :
  forms (disableSubmitButton i w) = forms w.
Proof.
  unfold disableSubmitButton. destruct (forms w !! i) as [c|]; [|done].
  by destruct (submitButton c).
Qed.

(** Leaving the loading state enables the submit button. *)
Lemma leave_loading_enables (i : nat) (c : Config) (w : World) (sb : nat) :
  forms w !! i = Some c →
  submitButton c = Some sb →
  is_Some (elements w !! sb) →
  disabled <$> elements (setSubmitButtonLoading i false w) !! sb = Some false.
Proof.
  intros Hc Hsb [e He]. unfold setSubmitButtonLoading. rewrite Hc, Hsb.
  destruct (submitLabel c); [destruct (truthy _)|]; simpl;
    rewrite ?alter_preserves by done; by rewrite lookup_alter_eq, He.
Qed.

(** After a response with [success: false], or a failed request, the token
    is cleared, and the [finally] block, which leaves the loading state,
    enables the submit button that [resetTurnstileOnError] had disabled. *)
Lemma settled_failure_enables_submit (i : nat) (c : Config) (w : World)
    (sb : nat) (o : Outcome) :
  forms w !! i = Some c →
  submitButton c = Some sb →
  is_Some (elements w !! sb) →
  turnstile w = true →
  (∀ result, o = Resolved result → success result = false) →
  turnstileToken <$> forms (handleFormSubmit_settled i o w) !! i = Some None
  ∧ disabled <$> elements (handleFormSubmit_settled i o w) !! sb = Some false.
Proof.
  intros Hc Hsb Hex Hts Ho. unfold handleFormSubmit_settled.
  set (w1 := match o with Resolved _ => _ | Rejected => _ end).
  assert (∃ m, w1 = showError i m (resetTurnstileOnError i w)) as [m ->].
  { unfold w1. destruct o as [result|]; [|eauto].
    rewrite (Ho result eq_refl). eauto. }
  assert (Hreset : forms (resetTurnstileOnError i w) !! i
                   = Some (set_turnstileToken None c)).
  { unfold resetTurnstileOnError. rewrite Hc, Hts. simpl.
    rewrite disableSubmitButton_forms. simpl.
    by rewrite list_lookup_alter_eq, Hc. }
  split.
  - by rewrite setSubmitButtonLoading_false_forms, showError_forms, Hreset.
  - apply (leave_loading_enables i (set_turnstileToken None c)).
    + by rewrite showError_forms.
    + done.
    + destruct (showError_framed i _ _ m Hreset) as (_ & _ & _ & Hx).
      apply Hx.
      destruct (resetTurnstileOnError_framed i c w Hc) as (_ & _ & _ & Hx').
      by apply Hx'.
Qed.

(** C2 at a failing input.  The first sample form holds the token
    "tok-123" and is submitted; the verification service answers
    [{ success: false, error: { message: "Spam detected" } }].  Afterwards
    the token is null and the message is the collaborator's, but the submit
    control is enabled ([disabled] is false): the [finally] block has undone
    what [resetTurnstileOnError] did.  The same holds with the fallback
    message when no error message is supplied. *)
Theorem failed_verification_reenables_submit :
  let submitted := handleFormSubmit 0 Sample.tokened in
  let w := handleFormSubmit_settled 0
             (Resolved (mkResult false (Some (Some "Spam detected"))))
             submitted in
  let w' := handleFormSubmit_settled 0 (Resolved (mkResult false None))
              submitted in
  length (requests submitted) = 1
  ∧ disabled <$> elements submitted !! 7 = Some true
  ∧ turnstileToken <$> forms w !! 0 = Some None
  ∧ textContent <$> elements w !! 10 = Some "Spam detected"
  ∧ disabled <$> elements w !! 7 = Some false
  ∧ textContent <$> elements w' !! 10
    = Some "Something went wrong. Please try again."
  ∧ disabled <$> elements w' !! 7 = Some false.
Proof. vm_compute. repeat split; reflexivity. Qed.

(* ================================================================== *)
(** * Properties: loading the provider script *)
(* ================================================================== *)

(** While [window.turnstile] is undefined every call appends a script. *)
Lemma loadTurnstile_appends (cb : Callback) (w : World) :
  turnstile w = false →
  headScripts (loadTurnstile cb w)
  = headScripts w ++
      [mkScript "https://challenges.cloudflare.com/turnstile/v0/api.js"
                true true cb]
  ∧ turnstile (loadTurnstile cb w) = false.
Proof. intros Hts. unfold loadTurnstile. by rewrite Hts. Qed.

Lemma setupHoneypot_provider (i rnd : nat) (w : World) :
  turnstile (setupHoneypot i rnd w) = turnstile w
  ∧ headScripts (setupHoneypot i rnd w) = headScripts w.
Proof.
  unfold setupHoneypot. destruct (forms w !! i); [simpl|done].
  by destruct (querySelector _ _ _).
Qed.

Lemma setupPageUrlField_provider (i : nat) (w : World) :
  turnstile (setupPageUrlField i w) = turnstile w
  ∧ headScripts (setupPageUrlField i w) = headScripts w.
Proof.
  unfold setupPageUrlField. destruct (forms w !! i); [simpl|done].
  by destruct (querySelector _ _ _).
Qed.

(** Every form that is registered while the provider is not yet defined
    appends a script element of its own, and the provider stays undefined
    for the next form. *)
Lemma setupSingleForm_appends_script (f rnd : nat) (w : World) :
  turnstile w = false →
  forms (setupSingleForm f rnd w) ≠ forms w →
  headScripts (setupSingleForm f rnd w)
  = headScripts w ++
      [mkScript "https://challenges.cloudflare.com/turnstile/v0/api.js"
                true true (RenderTurnstile (length (forms w)))]
  ∧ turnstile (setupSingleForm f rnd w) = false.
Proof.
  intros Hts. unfold setupSingleForm.
  destruct (elements w !! f); [|done].
  destruct (_ || _); [done|]. destruct (negb _); [done|]. intros _.
  set (i := length (forms w)).
  set (w0 := set_forms _ w).
  set (w2 := setupPageUrlField i (setupHoneypot i rnd w0)).
  assert (turnstile w2 = false ∧ headScripts w2 = headScripts w) as [H1 H2].
  { unfold w2.
    destruct (setupPageUrlField_provider i (setupHoneypot i rnd w0))
      as [-> ->].
    by destruct (setupHoneypot_provider i rnd w0) as [-> ->]. }
  destruct (loadTurnstile_appends (RenderTurnstile i) w2 H1) as [H3 H4].
  unfold setupFormSubmission. destruct (forms _ !! i); simpl;
    by rewrite H3, H4, H2.
Qed.

(** C4 at a failing input.  The sample page has two valid forms and the
    provider is not loaded when [setupForms] runs.  Two script elements are
    appended to the head, one per form, and each one's [onload] renders only
    its own form: the forms do not wait for one shared load. *)
Theorem two_forms_append_two_scripts :
  let w := setupForms [3; 5] Sample.page in
  turnstile Sample.page = false
  ∧ length (forms w) = 2
  ∧ length (headScripts w) = 2
  ∧ onload <$> headScripts w = [RenderTurnstile 0; RenderTurnstile 1]
  ∧ src <$> headScripts w
    = ["https://challenges.cloudflare.com/turnstile/v0/api.js";
       "https://challenges.cloudflare.com/turnstile/v0/api.js"].
Proof. vm_compute. repeat split; reflexivity. Qed.

(* ================================================================== *)
(** * Properties: ConfigValidator *)
(* ================================================================== *)

Set Warnings "-clear-no-such-hyp".

Lemma validate_field_errors (acc : list string * list FieldDescriptor)
    (field : Element) :
  (validate_field acc field).1 = [] ↔ acc.1 = [] ∧ field_ok field.
Proof.
  unfold validate_field, field_ok. simpl.
  destruct (truthy (getAttribute FORM_CONFIG.fieldTypeAttribute field)) eqn:Ht;
    destruct (truthy (getAttribute FORM_CONFIG.fieldDataAttribute field))
      eqn:Hd;
    destruct (truthy (getAttribute "name" field)) eqn:Hn; simpl;
    repeat case_bool_decide; simpl; rewrite ?app_nil; naive_solver.
Qed.

Lemma validate_field_descriptors (acc : list string * list FieldDescriptor)
    (field : Element) :
  (validate_field acc field).2 = acc.2 ++ [descriptor field].
Proof. reflexivity. Qed.

Lemma foldl_validate_field (l : list Element)
    (acc : list string * list FieldDescriptor) :
  ((foldl validate_field acc l).1 = [] ↔ acc.1 = [] ∧ Forall field_ok l)
  ∧ (foldl validate_field acc l).2 = acc.2 ++ (descriptor <$> l).
Proof.
  revert acc. induction l as [|field l IH]; intros acc; simpl.
  - rewrite app_nil_r. split; [|done]. rewrite Forall_nil. tauto.
  - destruct (IH (validate_field acc field)) as [IH1 IH2]. split.
    + rewrite IH1, validate_field_errors, Forall_cons. tauto.
    + rewrite IH2, validate_field_descriptors. by rewrite <- app_assoc.
Qed.

Lemma validate_valid_iff (f : nat) (w : World) :
  valid (validateFieldConfiguration f w) = true
  ↔ Forall field_ok (annotated_fields f w).
Proof.
  unfold validateFieldConfiguration, annotated_fields. simpl.
  destruct (foldl_validate_field
              (deref w (querySelectorAll f Sel.fieldType w)) ([], []))
    as [H1 _].
  rewrite bool_decide_eq_true, length_zero_iff_nil, H1. simpl. tauto.
Qed.

(** X1.  [validateFieldConfiguration] answers valid exactly when every
    annotated field of the form has a non-empty type, a non-empty name and,
    unless its type is [ignore] or [system-metadata], a non-empty data
    description; valid means the error list is empty; and the descriptors
    returned are those of the annotated fields, one each, in document
    order, whether or not the form is valid. *)
Theorem validateFieldConfiguration_spec (f : nat) (w : World) :
  (valid (validateFieldConfiguration f w) = true
   ↔ Forall field_ok (annotated_fields f w))
  ∧ (valid (validateFieldConfiguration f w) = true
     ↔ errors (validateFieldConfiguration f w) = [])
  ∧ configuredFields (validateFieldConfiguration f w)
    = descriptor <$> annotated_fields f w.
Proof.
  unfold validateFieldConfiguration, annotated_fields. simpl.
  destruct (foldl_validate_field
              (deref w (querySelectorAll f Sel.fieldType w)) ([], []))
    as [H1 H2].
  rewrite bool_decide_eq_true, length_zero_iff_nil.
  split; [|split; [done|by rewrite H2]].
  rewrite H1. simpl. tauto.
Qed.

(* ================================================================== *)
(** * Properties: setup *)
(* ================================================================== *)

Lemma shell_update_element r f w : shell (update_element r f w) = shell w.
Proof. reflexivity. Qed.

Lemma shell_disableSubmitButton i w : shell (disableSubmitButton i w) = shell w.
Proof.
  unfold disableSubmitButton. destruct (forms w !! i) as [c|]; [|done].
  by destruct (submitButton c).
Qed.

Lemma shell_enableSubmitButton i w : shell (enableSubmitButton i w) = shell w.
Proof.
  unfold enableSubmitButton. destruct (forms w !! i) as [c|]; [|done].
  by destruct (submitButton c).
Qed.

Lemma shell_hideError i w : shell (hideError i w) = shell w.
Proof.
  unfold hideError. destruct (forms w !! i) as [c|]; [|done].
  by destruct (errorElement c).
Qed.

Lemma shell_setupHoneypot i rnd w : shell (setupHoneypot i rnd w) = shell w.
Proof.
  unfold setupHoneypot. destruct (forms w !! i); [simpl|done].
  by destruct (querySelector _ _ _).
Qed.

Lemma shell_setupPageUrlField i w : shell (setupPageUrlField i w) = shell w.
Proof.
  unfold setupPageUrlField. destruct (forms w !! i); [simpl|done].
  by destruct (querySelector _ _ _).
Qed.

Lemma shell_turnstile_container c w :
  shell (turnstile_container c w).2 = shell w.
Proof.
  unfold turnstile_container. destruct (querySelector _ _ _); [done|].
  by destruct (submitButton c).
Qed.

(** What a render adds to the shell: one [render] call on the provider and
    the handle it returns, stored in the registration. *)
Lemma shell_renderTurnstile i c w :
  forms w !! i = Some c →
  shell (renderTurnstile i w)
  = (alter (set_turnstileWidgetId (Some (S (length (turnstileCalls w))))) i
       (forms w),
     listeners w, turnstile w, headScripts w,
     turnstileCalls w
       ++ [TsRender (turnstile_container c w).1 (siteKey c) i],
     timers w, alerts w, requests w, href w).
Proof.
  intros Hc. unfold renderTurnstile. rewrite Hc. simpl.
  rewrite shell_disableSubmitButton. unfold shell. simpl.
  pose proof (shell_turnstile_container c w) as Hs. unfold shell in Hs.
  by injection Hs as -> -> -> -> -> -> -> -> ->.
Qed.

(** A form that passes the checks is set up by the four steps in turn, on
    the world that holds its new registration. *)
Lemma setupSingleForm_registrable (f rnd : nat) (formEl : Element) (w : World) :
  elements w !! f = Some formEl →
  registrable formEl f w →
  let i := length (forms w) in
  let config :=
    mkConfig (getAttribute FORM_CONFIG.formIdAttribute formEl)
      (getAttribute FORM_CONFIG.formPurposeAttribute formEl)
      (getAttribute FORM_CONFIG.siteKeyAttribute formEl) f
      (querySelector f Sel.submitButton w) (querySelector f Sel.submitLabel w)
      (querySelector f Sel.errorElement w) (querySelector f Sel.errorText w)
      (document_querySelector Sel.successElement w) None None None in
  setupSingleForm f rnd w
  = setupFormSubmission i
      (loadTurnstile (RenderTurnstile i)
         (setupPageUrlField i
            (setupHoneypot i rnd (set_forms (forms w ++ [config]) w)))).
Proof.
  intros Hf (Hkey & Hpurpose & Hfields). unfold setupSingleForm.
  rewrite Hf. cbn [siteKey formPurpose]. rewrite Hkey, Hpurpose.
  by rewrite (proj2 (validate_valid_iff f w) Hfields).
Qed.

Lemma setupSingleForm_not_registrable (f rnd : nat) (formEl : Element)
    (w : World) :
  elements w !! f = Some formEl →
  ¬ registrable formEl f w →
  setupSingleForm f rnd w = w.
Proof.
  intros Hf Hno. unfold setupSingleForm. rewrite Hf.
  cbn [siteKey formPurpose].
  destruct (truthy (getAttribute FORM_CONFIG.siteKeyAttribute formEl)) eqn:Hk;
    [|done].
  destruct (truthy (getAttribute FORM_CONFIG.formPurposeAttribute formEl))
    eqn:Hp; [|done].
  cbn [negb orb].
  destruct (valid (validateFieldConfiguration f w)) eqn:Hv; [|done].
  destruct Hno. repeat split; try done. by apply validate_valid_iff.
Qed.

(** The shell after the setup of a form that passes the checks. *)
Lemma shell_setupSingleForm (f rnd : nat) (formEl : Element) (w : World) :
  elements w !! f = Some formEl →
  registrable formEl f w →
  let i := length (forms w) in
  let config :=
    mkConfig (getAttribute FORM_CONFIG.formIdAttribute formEl)
      (getAttribute FORM_CONFIG.formPurposeAttribute formEl)
      (getAttribute FORM_CONFIG.siteKeyAttribute formEl) f
      (querySelector f Sel.submitButton w) (querySelector f Sel.submitLabel w)
      (querySelector f Sel.errorElement w) (querySelector f Sel.errorText w)
      (document_querySelector Sel.successElement w) None None None in
  ∃ container,
    shell (setupSingleForm f rnd w)
    = (forms w ++
         [if turnstile w
          then set_turnstileWidgetId
                 (Some (S (length (turnstileCalls w)))) config
          else config],
       listeners w ++ submit_listeners i f,
       turnstile w,
       headScripts w ++ (if turnstile w then [] else [provider_script i]),
       turnstileCalls w ++
         (if turnstile w then [TsRender container (siteKey config) i] else []),
       timers w, alerts w, requests w, href w).
Proof.
  intros Hf Hreg i config.
  rewrite (setupSingleForm_registrable f rnd formEl w Hf Hreg).
  fold i. fold config.
  set (w0 := set_forms (forms w ++ [config]) w).
  set (w2 := setupPageUrlField i (setupHoneypot i rnd w0)).
  assert (H2 : shell w2 = shell w0)
    by (unfold w2; by rewrite shell_setupPageUrlField, shell_setupHoneypot).
  assert (Hi : forms w0 !! i = Some config)
    by (simpl; by rewrite lookup_app_r, Nat.sub_diag by done).
  unfold shell in H2. simpl in H2.
  injection H2 as Hforms Hlis Hts Hhead Hcalls Htim Hal Hreq Hhref.
  exists (turnstile_container config w2).1.
  unfold loadTurnstile. rewrite Hts. destruct (turnstile w) eqn:Htw; simpl.
  - assert (Hi2 : forms w2 !! i = Some config) by (by rewrite Hforms).
    pose proof (shell_renderTurnstile i config w2 Hi2) as Hr.
    unfold shell in Hr. injection Hr as Hf3 Hl3 Ht3 Hh3 Hc3 Htm3 Ha3 Hr3 Hhr3.
    unfold setupFormSubmission. rewrite Hf3, Hforms.
    rewrite list_lookup_alter_eq. simpl in Hi. rewrite Hi. simpl.
    unfold shell. simpl.
    rewrite Hf3, Hforms, Hl3, Hlis, Ht3, Hts, Hh3, Hhead, Hc3, Hcalls, Htm3,
      Htim, Ha3, Hal, Hr3, Hreq, Hhr3, Hhref.
    rewrite alter_app_r_alt by (unfold i; lia).
    by rewrite Nat.sub_diag, app_nil_r.
  - unfold setupFormSubmission. simpl. rewrite Hforms. simpl in Hi.
    rewrite Hi. unfold shell. simpl.
    by rewrite Hforms, Hlis, Hts, Hhead, Hcalls, Htim, Hal, Hreq, Hhref,
      app_nil_r.
Qed.

(** X2.  A form element is registered exactly when it has a non-empty site
    key, a non-empty purpose and a valid field configuration.  Then the
    setup appends one registration for it, with the form's site key and
    purpose and with a null token, and registers the two submit listeners on
    the form; it shows nothing and sends nothing.  Otherwise the setup
    leaves the whole world as it is: no registration, no trap field, no
    listener, no script. *)
Theorem setupSingleForm_registers_iff (f rnd : nat) (formEl : Element)
    (w : World)
    (Hf : elements w !! f = Some formEl) :
  (registrable formEl f w →
   ∃ c, forms (setupSingleForm f rnd w) = forms w ++ [c]
        ∧ formElement c = f
        ∧ siteKey c = getAttribute FORM_CONFIG.siteKeyAttribute formEl
        ∧ formPurpose c = getAttribute FORM_CONFIG.formPurposeAttribute formEl
        ∧ turnstileToken c = None
        ∧ listeners (setupSingleForm f rnd w)
          = listeners w ++ submit_listeners (length (forms w)) f
        ∧ alerts (setupSingleForm f rnd w) = alerts w
        ∧ requests (setupSingleForm f rnd w) = requests w)
  ∧ (¬ registrable formEl f w → setupSingleForm f rnd w = w).
Proof.
  split; [|by apply setupSingleForm_not_registrable].
  intros Hreg.
  destruct (shell_setupSingleForm f rnd formEl w Hf Hreg) as [k Hs].
  unfold shell in Hs. injection Hs as -> -> _ _ _ _ -> -> _.
  eexists. split; [reflexivity|]. by destruct (turnstile w).
Qed.

(** X2 on the sample page: the first form is registered. *)
Lemma setupSingleForm_registers_iff_witness :
  ∃ c, forms (setupSingleForm 1 3 Sample.page) = [c]
       ∧ formElement c = 1 ∧ turnstileToken c = None.
Proof.
  destruct (setupSingleForm_registers_iff 1 3
              (Sample.html "form" [("cf-form", "contact");
                 ("cf-form-purpose", "Contact the sales team");
                 ("cf-turnstile-sitekey", "0x4AAAA-site")] "")
              Sample.page) as [Hyes _]; [vm_compute; reflexivity|].
  destruct Hyes as (c & Hc & Hfe & _ & _ & Htok & _).
  - repeat split; try reflexivity. vm_compute.
    repeat constructor; vm_compute; auto.
  - by exists c.
Defined.

Lemma setup_adds_zero (w : World) : setup_adds 0 w w.
Proof.
  unfold setup_adds. destruct (turnstile w); repeat split; lia.
Qed.

Lemma setup_adds_trans (n m : nat) (w1 w2 w3 : World) :
  setup_adds n w1 w2 → setup_adds m w2 w3 → setup_adds (n + m) w1 w3.
Proof.
  unfold setup_adds.
  intros (Hf & Hl & Ht & Hh & Hc & Htm & Ha & Hr)
         (Hf' & Hl' & Ht' & Hh' & Hc' & Htm' & Ha' & Hr').
  rewrite Hf', Hf, Hl', Hl, Ht', Ht, Hh', Hh, Hc', Hc, Htm', Htm, Ha', Ha,
    Hr', Hr, Ht.
  destruct (turnstile w1); repeat split; lia.
Qed.

Lemma setupSingleForm_adds (f rnd : nat) (w : World) :
  ∃ n, (n ≤ 1)%nat ∧ setup_adds n w (setupSingleForm f rnd w).
Proof.
  destruct (elements w !! f) as [formEl|] eqn:Hf.
  - destruct (decide (registrable formEl f w)) as [Hreg|Hno].
    + exists 1. split; [done|].
      destruct (shell_setupSingleForm f rnd formEl w Hf Hreg) as [k Hs].
      unfold shell in Hs. injection Hs as Hfo Hl Ht Hh Hc Htm Ha Hr _.
      unfold setup_adds.
      rewrite Hfo, Hl, Ht, Hh, Hc, Htm, Ha, Hr, !length_app, filter_app,
        length_app.
      destruct (turnstile w); simpl; repeat split; lia.
    + exists 0. split; [lia|].
      rewrite (setupSingleForm_not_registrable f rnd formEl w Hf Hno).
      apply setup_adds_zero.
  - exists 0. split; [lia|]. unfold setupSingleForm. rewrite Hf.
    apply setup_adds_zero.
Qed.

Lemma foldl_setupSingleForm_adds (l : list (nat * nat)) (w : World) :
  ∃ n, (n ≤ length l)%nat
       ∧ setup_adds n w
           (foldl (λ w' fr, setupSingleForm fr.1 fr.2 w') w l).
Proof.
  revert w. induction l as [|[f rnd] l IH]; intros w; simpl.
  - exists 0. split; [done|apply setup_adds_zero].
  - destruct (setupSingleForm_adds f rnd w) as (n & Hn & H1).
    destruct (IH (setupSingleForm f rnd w)) as (m & Hm & H2).
    exists (n + m). split; [lia|]. by apply (setup_adds_trans _ _ _ _ _ H1).
Qed.

(** X3.  What [setupForms] adds, for any page and any random draws: at most
    one registration per form element that carries the form attribute, and
    for the [n] registrations it makes exactly [2 n] submit listeners and
    [n] loads of the provider, which are [n] script elements when the
    provider is undefined at that time and [n] [render] calls when it is
    defined.  It sets no timer, shows no alert and sends no request. *)
Theorem setupForms_accounting (rnds : list nat) (w : World) :
  ∃ n, (n ≤ length (document_querySelectorAll Sel.form w))%nat
       ∧ setup_adds n w (setupForms rnds w).
Proof.
  unfold setupForms.
  destruct (foldl_setupSingleForm_adds
              (zip (document_querySelectorAll Sel.form w)
                   (rnds ++ replicate
                              (length (document_querySelectorAll Sel.form w)) 0))
              w) as (n & Hn & Hadds).
  exists n. split; [|done]. rewrite length_zip in Hn. lia.
Qed.

(* ================================================================== *)
(** * Properties: the trap field and the page-URL field *)
(* ================================================================== *)

Lemma honeypot_element_name (rnd : nat) :
  name (honeypot_element rnd) ∈ FORM_CONFIG.honeypotFieldNames.
Proof.
  assert (name (honeypot_element rnd)
          = default "" (FORM_CONFIG.honeypotFieldNames
                          !! (rnd `mod` length FORM_CONFIG.honeypotFieldNames)))
    as -> by reflexivity.
  destruct (lookup_lt_is_Some_2 FORM_CONFIG.honeypotFieldNames
              (rnd `mod` length FORM_CONFIG.honeypotFieldNames)) as [x Hx].
  { apply Nat.mod_upper_bound. discriminate. }
  rewrite Hx. simpl. apply list_elem_of_lookup. eauto.
Qed.

Lemma querySelector_set_value (f r : nat) (s : Selector) (v : string)
    (w : World) :
  querySelector f s (update_element r (set_value v) w) = querySelector f s w.
Proof. unfold querySelector. by rewrite querySelectorAll_set_value. Qed.

(** The trap evidence in the payload, read off the first input that carries
    the honeypot marker. *)
Lemma collectFormData_trap_evidence (config : Config) (w : World) (r : nat)
    (e : Element) :
  querySelector (formElement config) Sel.honeypot w = Some r →
  elements w !! r = Some e →
  collectFormData config w !! "_honeypot_field_name" = Some (VStr (name e))
  ∧ collectFormData config w !! "_honeypot_filled"
    = Some (VBool (bool_decide (value e ≠ ""))).
Proof.
  intros Hq He. unfold collectFormData. simpl. rewrite Hq. simpl.
  rewrite He. split.
  - rewrite !lookup_insert_ne by done. by rewrite lookup_insert_eq.
  - rewrite !lookup_insert_ne by done. by rewrite lookup_insert_eq.
Qed.

(** X4.  On a registered form in the document that has no trap field yet,
    [setupHoneypot] plants one as the very first descendant of the form: a
    text input with an empty value, named from the fixed pool whatever the
    random draw, marked with the honeypot attribute, out of the tab order
    and hidden from assistive technology.  The payload collected afterwards
    reports that field by its name as not filled, and reports it as filled
    as soon as its value is anything but the empty string. *)
Theorem setupHoneypot_plants_trap (i rnd : nat) (config : Config) (w : World)
    (Hreg : forms w !! i = Some config)
    (Hdoc : is_Some (find_node (formElement config) (document w)))
    (Hnone : querySelector (formElement config) Sel.honeypot w = None) :
  ∃ r e,
    head (descendants (formElement config)
            (document (setupHoneypot i rnd w))) = Some r
    ∧ querySelector (formElement config) Sel.honeypot (setupHoneypot i rnd w)
      = Some r
    ∧ elements (setupHoneypot i rnd w) !! r = Some e
    ∧ elements w !! r = None
    ∧ name e ∈ FORM_CONFIG.honeypotFieldNames
    ∧ type e = "text" ∧ value e = ""
    ∧ getAttribute "tabindex" e = Some "-1"
    ∧ getAttribute "aria-hidden" e = Some "true"
    ∧ collectFormData config (setupHoneypot i rnd w) !! "_honeypot_field_name"
      = Some (VStr (name e))
    ∧ collectFormData config (setupHoneypot i rnd w) !! "_honeypot_filled"
      = Some (VBool false)
    ∧ ∀ v, collectFormData config
             (update_element r (set_value v) (setupHoneypot i rnd w))
             !! "_honeypot_filled"
           = Some (VBool (bool_decide (v ≠ ""))).
Proof.
  exists (fresh_ref w), (honeypot_element rnd).
  unfold setupHoneypot. rewrite Hreg. simpl. rewrite Hnone.
  assert (Hq : querySelector (formElement config) Sel.honeypot
                 (insert_first_child (formElement config)
                    (honeypot_element rnd) w) = Some (fresh_ref w)).
  { unfold querySelector. rewrite querySelectorAll_insert_first by done.
    by destruct (honeypot_element_matches rnd) as [-> _]. }
  assert (He : elements (insert_first_child (formElement config)
                           (honeypot_element rnd) w) !! fresh_ref w
               = Some (honeypot_element rnd))
    by (simpl; apply lookup_insert_eq).
  destruct (collectFormData_trap_evidence config _ _ _ Hq He) as [Hn Hfill].
  split; [simpl; by rewrite descendants_prependChild|].
  split; [done|]. split; [done|]. split; [apply fresh_ref_heap|].
  split; [apply honeypot_element_name|].
  repeat (split; [done|]).
  intros v.
  refine (proj2 (collectFormData_trap_evidence config _ (fresh_ref w)
                   (set_value v (honeypot_element rnd)) _ _)).
  - by rewrite querySelector_set_value.
  - unfold update_element. simpl. by rewrite lookup_alter_eq, lookup_insert_eq.
Qed.

(** X4 at the first sample form, before any setup. *)
Lemma setupHoneypot_plants_trap_witness :
  ∃ r e,
    head (descendants 1 (document (setupHoneypot 0 3
            (set_forms [mkConfig None None None 1 None None None None None
                                 None None None] Sample.page)))) = Some r
    ∧ elements (setupHoneypot 0 3
            (set_forms [mkConfig None None None 1 None None None None None
                                 None None None] Sample.page)) !! r = Some e
    ∧ name e ∈ FORM_CONFIG.honeypotFieldNames.
Proof.
  destruct (setupHoneypot_plants_trap 0 3
              (mkConfig None None None 1 None None None None None None None
                 None)
              (set_forms [mkConfig None None None 1 None None None None None
                                   None None None] Sample.page))
    as (r & e & H1 & _ & H3 & _ & H5 & _).
  - reflexivity.
  - vm_compute. eauto.
  - vm_compute. reflexivity.
  - exists r, e. auto.
Defined.

(** X5.  On a registered form in the document, [setupPageUrlField] leaves
    the form with a page-URL input, first among the inputs of that name,
    whose value is the current page address.  When the form already had
    such an input, it is that same input, refreshed in place: the document
    tree is unchanged and no element object is created. *)
Theorem setupPageUrlField_carries_href (i : nat) (config : Config) (w : World)
    (Hreg : forms w !! i = Some config)
    (Hdoc : is_Some (find_node (formElement config) (document w))) :
  ∃ r e,
    querySelector (formElement config) Sel.pageUrl (setupPageUrlField i w)
      = Some r
    ∧ elements (setupPageUrlField i w) !! r = Some e
    ∧ value e = href w
    ∧ name e = FORM_CONFIG.pageUrlField_fieldName
    ∧ ∀ r0, querySelector (formElement config) Sel.pageUrl w = Some r0 →
            r = r0
            ∧ document (setupPageUrlField i w) = document w
            ∧ ∀ x, is_Some (elements (setupPageUrlField i w) !! x)
                   ↔ is_Some (elements w !! x).
Proof.
  unfold setupPageUrlField. rewrite Hreg. simpl.
  destruct (querySelector _ Sel.pageUrl w) as [r0|] eqn:Hq.
  - assert (Hsel : selects w Sel.pageUrl r0).
    { unfold querySelector, querySelectorAll in Hq.
      apply head_Some_elem_of, list_elem_of_filter in Hq. tauto. }
    unfold selects in Hsel. destruct (elements w !! r0) as [e0|] eqn:He0;
      [|done].
    exists r0, (set_value (href w) e0).
    split; [by rewrite querySelector_set_value|].
    split; [simpl; by rewrite lookup_alter_eq, He0|].
    split; [done|]. split.
    + unfold matches, Sel.pageUrl, getAttribute in Hsel.
      apply andb_true_iff in Hsel as [_ Hsel].
      unfold name, getAttribute. simpl.
      destruct (assoc "name" (attributes e0)); [|done].
      by apply bool_decide_eq_true in Hsel as ->.
    + intros ? [= <-]. split; [done|]. split; [done|].
      intros x. simpl. apply lookup_alter_is_Some.
  - exists (fresh_ref w), (page_url_element (href w)).
    split.
    { unfold querySelector. rewrite querySelectorAll_insert_first by done.
      by destruct (page_url_element_matches (href w)) as [-> _]. }
    split; [simpl; apply lookup_insert_eq|]. by repeat split.
Qed.

(** X5 at the form of [Sample.authored], which has page-URL inputs. *)
Lemma setupPageUrlField_carries_href_witness :
  ∃ r e,
    querySelector 1 Sel.pageUrl (setupPageUrlField 0 Sample.authored) = Some r
    ∧ elements (setupPageUrlField 0 Sample.authored) !! r = Some e
    ∧ value e = "https://example.com/feedback".
Proof.
  destruct (setupPageUrlField_carries_href 0
              (mkConfig (Some "f") (Some "Feedback") (Some "0x4AAAA-site") 1
                        None None None None None None None None)
              Sample.authored) as (r & e & H1 & H2 & H3 & _).
  - reflexivity.
  - vm_compute. eauto.
  - exists r, e. auto.
Defined.

(* ================================================================== *)
(** * Properties: presentation does not change what is collected *)
(* ================================================================== *)

Lemma same_controls_refl (w : World) : same_controls w w.
Proof. split; [done|]. intros r. by destruct (elements w !! r). Qed.

Lemma same_controls_trans (w1 w2 w3 : World) :
  same_controls w1 w2 → same_controls w2 w3 → same_controls w1 w3.
Proof.
  intros [Hd H] [Hd' H']. split; [congruence|]. intros r.
  specialize (H r). specialize (H' r).
  destruct (elements w1 !! r), (elements w2 !! r), (elements w3 !! r);
    try done. naive_solver congruence.
Qed.

Lemma same_controls_update_element (r : nat) (f : Element → Element)
    (w : World) :
  keeps_control f → same_controls w (update_element r f w).
Proof.
  intros Hf. split; [done|]. intros x. simpl. rewrite lookup_alter.
  case_decide; [subst|]; destruct (elements w !! x) as [e|]; simpl;
    try done; try apply Hf.
Qed.

Lemma same_controls_shell_only (w w' : World) :
  document w' = document w → elements w' = elements w → same_controls w w'.
Proof.
  intros Hd He. split; [done|]. intros r. rewrite He.
  by destruct (elements w !! r).
Qed.

Lemma keeps_control_set_disabled b : keeps_control (set_disabled b).
Proof. by intros e. Qed.
Lemma keeps_control_set_innerHTML s : keeps_control (set_innerHTML s).
Proof. by intros e. Qed.
Lemma keeps_control_set_textContent s : keeps_control (set_textContent s).
Proof. by intros e. Qed.
Lemma keeps_control_set_style p v : keeps_control (set_style p v).
Proof. by intros e. Qed.
Lemma keeps_control_classList_add c : keeps_control (classList_add c).
Proof. intros e. unfold classList_add. by case_bool_decide. Qed.
Lemma keeps_control_classList_remove c : keeps_control (classList_remove c).
Proof. by intros e. Qed.

Create HintDb controls.

Hint Resolve keeps_control_set_disabled keeps_control_set_innerHTML
  keeps_control_set_textContent keeps_control_set_style
  keeps_control_classList_add keeps_control_classList_remove : controls.

(** Chains of element updates, registration updates and records. *)
Ltac same_controls_chain :=
  first
    [ apply same_controls_refl
    | apply same_controls_update_element; eauto with controls
    | apply same_controls_shell_only; reflexivity
    | eapply same_controls_trans;
        [|first [ apply same_controls_update_element; eauto with controls
                | apply same_controls_shell_only; reflexivity ]];
      same_controls_chain ].

Lemma same_controls_selects (w w' : World) (s : Selector) (r : nat) :
  same_controls w w' → ¬ is_class_selector s →
  selects w' s r ↔ selects w s r.
Proof.
  intros [_ H] Hs. specialize (H r). unfold selects.
  destruct (elements w !! r) as [e|], (elements w' !! r) as [e'|]; try done.
  destruct H as (Ht & Ha & _). destruct s; simpl in *; try done.
  - unfold getAttribute. by rewrite Ht, Ha.
  - by rewrite Ht.
Qed.

Lemma same_controls_querySelectorAll (w w' : World) (s : Selector) (f : nat) :
  same_controls w w' → ¬ is_class_selector s →
  querySelectorAll f s w' = querySelectorAll f s w.
Proof.
  intros Hw Hs. unfold querySelectorAll. rewrite (proj1 Hw).
  apply list_filter_iff. intros r. by apply same_controls_selects.
Qed.

Lemma collect_input_same (acc : Collected) (e e' : Element) :
  tagName e' = tagName e ∧ attributes e' = attributes e
  ∧ type e' = type e ∧ value e' = value e ∧ checked e' = checked e →
  collect_input acc e' = collect_input acc e.
Proof.
  intros (_ & Ha & Ht & Hv & Hc).
  unfold collect_input, collected, name, getAttribute.
  by rewrite Ha, Ht, Hv, Hc.
Qed.

Lemma same_controls_collect (w w' : World) (l : list nat) (acc : Collected) :
  same_controls w w' →
  foldl collect_input acc (deref w' l) = foldl collect_input acc (deref w l).
Proof.
  intros [_ H]. revert acc. induction l as [|r l IH]; intros acc; [done|].
  unfold deref in *. simpl. specialize (H r).
  destruct (elements w !! r) as [e|], (elements w' !! r) as [e'|];
    try done; simpl.
  by rewrite (collect_input_same acc e e'), IH.
Qed.

(** Worlds with the same controls give the same payload. *)
Lemma same_controls_collectFormData (config : Config) (w w' : World) :
  same_controls w w' →
  collectFormData config w' = collectFormData config w.
Proof.
  intros Hw. unfold collectFormData, form_controls, collect_inputs,
    querySelector.
  rewrite !(same_controls_querySelectorAll w w') by (done || by intros []).
  rewrite (same_controls_collect w w') by done. simpl.
  destruct (head (querySelectorAll (formElement config) Sel.honeypot w))
    as [r|]; simpl; [|done].
  destruct Hw as [_ H]. specialize (H r).
  destruct (elements w !! r) as [e|], (elements w' !! r) as [e'|];
    try done; simpl.
  destruct H as (_ & Ha & _ & Hv & _). unfold name, getAttribute.
  by rewrite Ha, Hv.
Qed.

Lemma same_controls_hideError i w : same_controls w (hideError i w).
Proof.
  unfold hideError. destruct (forms w !! i) as [c|]; [|same_controls_chain].
  destruct (errorElement c); same_controls_chain.
Qed.

Lemma same_controls_showError i m w : same_controls w (showError i m w).
Proof.
  unfold showError. destruct (forms w !! i) as [c|]; [|same_controls_chain].
  destruct (errorElement c), (errorText c); same_controls_chain.
Qed.

Lemma same_controls_setSubmitButtonLoading i b w :
  same_controls w (setSubmitButtonLoading i b w).
Proof.
  unfold setSubmitButtonLoading.
  destruct (forms w !! i) as [c|]; [|same_controls_chain].
  destruct (submitButton c); [|same_controls_chain].
  destruct b, (submitLabel c); try destruct (truthy _); same_controls_chain.
Qed.

Lemma same_controls_disableSubmitButton i w :
  same_controls w (disableSubmitButton i w).
Proof.
  unfold disableSubmitButton.
  destruct (forms w !! i) as [c|]; [|same_controls_chain].
  destruct (submitButton c); same_controls_chain.
Qed.

Lemma same_controls_enableSubmitButton i w :
  same_controls w (enableSubmitButton i w).
Proof.
  unfold enableSubmitButton.
  destruct (forms w !! i) as [c|]; [|same_controls_chain].
  destruct (submitButton c); same_controls_chain.
Qed.

(* ================================================================== *)
(** * Properties: a submission with a token *)
(* ================================================================== *)

Lemma env_hideError i w : env (hideError i w) = env w.
Proof.
  unfold hideError. destruct (forms w !! i) as [c|]; [|done].
  by destruct (errorElement c).
Qed.

Lemma env_setSubmitButtonLoading i b w :
  env (setSubmitButtonLoading i b w) = env w.
Proof.
  unfold setSubmitButtonLoading. destruct (forms w !! i) as [c|]; [|done].
  destruct (submitButton c); [|done].
  destruct b, (submitLabel c); try destruct (truthy _); done.
Qed.

Lemma shell_enter_loading i c w :
  forms w !! i = Some c →
  ∃ c', static c' = static c ∧ turnstileToken c' = turnstileToken c
        ∧ shell (setSubmitButtonLoading i true w)
          = (<[i := c']> (forms w), listeners w, turnstile w, headScripts w,
             turnstileCalls w, timers w, alerts w, requests w, href w).
Proof.
  intros Hc. unfold setSubmitButtonLoading. rewrite Hc.
  destruct (submitButton c) as [sb|];
    [destruct (submitLabel c) as [sl|]|]; simpl.
  - eexists (set_originalButtonText _ c). split; [done|]. split; [done|].
    unfold shell. simpl. repeat f_equal.
    apply list_eq. intros j. rewrite list_lookup_alter, list_lookup_insert.
    destruct (decide (i = j)) as [<-|]; [|by rewrite decide_False by lia].
    rewrite Hc. simpl. apply lookup_lt_Some in Hc as Hlt.
    by rewrite decide_True by done.
  - exists c. split; [done|]. split; [done|]. unfold shell. simpl.
    by rewrite list_insert_id.
  - exists c. split; [done|]. split; [done|]. unfold shell.
    by rewrite list_insert_id.
Qed.

(** Entering the loading state disables the submit button and puts the
    loading text on the label. *)
Lemma enter_loading_presentation (i : nat) (c : Config) (w : World) (sb : nat) :
  forms w !! i = Some c →
  submitButton c = Some sb →
  is_Some (elements w !! sb) →
  disabled <$> elements (setSubmitButtonLoading i true w) !! sb = Some true
  ∧ ∀ sl, submitLabel c = Some sl → is_Some (elements w !! sl) →
          innerHTML <$> elements (setSubmitButtonLoading i true w) !! sl
          = Some FORM_CONFIG.loadingText.
Proof.
  intros Hc Hsb [e He]. unfold setSubmitButtonLoading. rewrite Hc, Hsb.
  destruct (submitLabel c) as [sl|]; simpl.
  - split.
    + rewrite alter_preserves by done. by rewrite lookup_alter_eq, He.
    + intros ? [= <-] [e' He']. rewrite lookup_alter_eq.
      destruct (alter (set_disabled true) sb (elements w) !! sl) eqn:Hx;
        [done|].
      apply lookup_alter_None in Hx. congruence.
  - split; [by rewrite lookup_alter_eq, He|]. by intros.
Qed.

(** What [handleFormSubmit] does up to its [await], by token. *)
Lemma handleFormSubmit_issues (i : nat) (config : Config) (w : World)
    (Hreg : forms w !! i = Some config) :
  (truthy (turnstileToken config) = true →
   ∃ body,
     requests (handleFormSubmit i w)
     = requests w ++
         [mkRequest FORM_CONFIG.workerUrl "POST"
                    [("Content-Type", "application/json")] (VObj body)]
     ∧ body !! "turnstileToken" = Some (nullable (turnstileToken config))
     ∧ body !! "formPurpose" = Some (nullable (formPurpose config))
     ∧ body !! "formData"
       = Some (VObj (<["metadata" := metadata config w]>
                       (collectFormData config w)))
     ∧ body !! "fieldTypes" = collectFormData config w !! "fieldTypes"
     ∧ turnstileToken <$> forms (handleFormSubmit i w) !! i
       = Some (turnstileToken config)
     ∧ alerts (handleFormSubmit i w) = alerts w
     ∧ timers (handleFormSubmit i w) = timers w
     ∧ turnstileCalls (handleFormSubmit i w) = turnstileCalls w
     ∧ ∀ sb, submitButton config = Some sb → is_Some (elements w !! sb) →
         disabled <$> elements (handleFormSubmit i w) !! sb = Some true
         ∧ ∀ sl, submitLabel config = Some sl → is_Some (elements w !! sl) →
                 innerHTML <$> elements (handleFormSubmit i w) !! sl
                 = Some FORM_CONFIG.loadingText)
  ∧ (truthy (turnstileToken config) = false →
     requests (handleFormSubmit i w) = requests w
     ∧ forms (handleFormSubmit i w) = forms w).
Proof.
  assert (H1 : forms (hideError i w) !! i = Some config)
    by (by rewrite hideError_forms).
  split; intros Htok; unfold handleFormSubmit; rewrite H1, Htok; simpl.
  - set (w2 := setSubmitButtonLoading i true (hideError i w)).
    assert (Hsame : same_controls w w2).
    { eapply same_controls_trans; [apply same_controls_hideError|].
      apply same_controls_setSubmitButtonLoading. }
    assert (Henv : env w2 = env w)
      by (unfold w2; by rewrite env_setSubmitButtonLoading, env_hideError).
    destruct (shell_enter_loading i config (hideError i w) H1)
      as (c' & Hst & Htk & Hshell). fold w2 in Hshell.
    pose proof (shell_hideError i w) as Hsh. unfold shell in Hshell, Hsh.
    injection Hsh as Hf1 _ _ _ Hc1 Htm1 Ha1 Hr1 _.
    injection Hshell as Hf2 _ _ _ Hc2 Htm2 Ha2 Hr2 _.
    rewrite (same_controls_collectFormData config w w2 Hsame).
    assert (Hmeta : metadata config w2 = metadata config w)
      by (unfold metadata; by rewrite Henv).
    rewrite Hmeta. eexists. split; [by rewrite Hr2, Hr1|].
    split; [by rewrite !lookup_insert_ne, lookup_insert_eq by done|].
    split; [by rewrite lookup_insert_eq|].
    split; [by rewrite !lookup_insert_ne, lookup_insert_eq by done|].
    split.
    { rewrite lookup_insert_ne, lookup_insert_eq by done.
      rewrite lookup_insert_ne by done.
      unfold collectFormData.
      by rewrite lookup_insert_ne, lookup_insert_eq by done. }
    split.
    { rewrite Hf2, list_lookup_insert_eq by (by apply lookup_lt_Some in H1).
      simpl. by rewrite Htk. }
    split; [by rewrite Ha2, Ha1|]. split; [by rewrite Htm2, Htm1|].
    split; [by rewrite Hc2, Hc1|].
    intros sb Hsb Hex.
    destruct (enter_loading_presentation i config (hideError i w) sb H1 Hsb)
      as [Hd Hl]; [by apply hideError_is_Some|].
    split; [done|]. intros sl Hsl Hexl.
    apply Hl; [done|by apply hideError_is_Some].
  - by rewrite showError_requests, showError_forms, hideError_requests,
      hideError_forms.
Qed.



(* ================================================================== *)
(** * Properties: submit events on a valid form *)
(* ================================================================== *)

Lemma filter_none {A} (P : A → Prop) `{!∀ x, Decision (P x)} (l : list A) :
  (∀ x, x ∈ l → ¬ P x) → filter P l = [].
Proof.
  induction l as [|x l IH]; intros Hl; [done|].
  rewrite filter_cons_False by (apply Hl; by left).
  apply IH. intros y Hy. apply Hl. by right.
Qed.

(** X7.  On a form wired once, a submit event that passes constraint
    validation starts the controlled submission exactly once and comes out
    with its default action prevented and its propagation stopped, in either
    order in which a browser runs the two listeners. *)
Theorem valid_submit_runs_once (o : TargetOrder) (i : nat) (config : Config)
    (w : World)
    (Hreg : forms w !! i = Some config)
    (Hunwired : ∀ l, l ∈ listeners w → target l ≠ formElement config) :
  dispatch_submit o (formElement config) true (setupFormSubmission i w)
  = (mkEvent true true true, handleFormSubmit i (setupFormSubmission i w)).
Proof.
  unfold dispatch_submit.
  assert (filter (λ l, target l = formElement config)
            (listeners (setupFormSubmission i w))
          = submit_listeners i (formElement config)) as ->.
  { unfold setupFormSubmission. rewrite Hreg. simpl.
    rewrite filter_app, (filter_none _ (listeners w)) by done.
    simpl. rewrite !filter_cons_True by done. done. }
  by destruct o.
Qed.

(** X7 at the second sample form, wired on the unwired page. *)
Lemma valid_submit_runs_once_witness :
  let w := set_forms [mkConfig None None None 12 None None None None None
                               None None None] Sample.page in
  dispatch_submit CaptureFirst 12 true (setupFormSubmission 0 w)
  = (mkEvent true true true, handleFormSubmit 0 (setupFormSubmission 0 w)).
Proof.
  refine (valid_submit_runs_once CaptureFirst 0
            (mkConfig None None None 12 None None None None None None None
               None)
            (set_forms [mkConfig None None None 12 None None None None None
                                 None None None] Sample.page) _ _).
  - reflexivity.
  - intros l Hl. simpl in Hl. by apply elem_of_nil in Hl.
Defined.

(* ================================================================== *)
(** * Properties: the token through the widget callbacks *)
(* ================================================================== *)

Lemma disableSubmitButton_disables (i : nat) (c : Config) (w : World) (sb : nat) :
  forms w !! i = Some c → submitButton c = Some sb →
  is_Some (elements w !! sb) →
  disabled <$> elements (disableSubmitButton i w) !! sb = Some true.
Proof.
  intros Hc Hsb [e He]. unfold disableSubmitButton. rewrite Hc, Hsb. simpl.
  rewrite alter_preserves by done. by rewrite lookup_alter_eq, He.
Qed.

Lemma enableSubmitButton_enables (i : nat) (c : Config) (w : World) (sb : nat) :
  forms w !! i = Some c → submitButton c = Some sb →
  is_Some (elements w !! sb) →
  disabled <$> elements (enableSubmitButton i w) !! sb = Some false.
Proof.
  intros Hc Hsb [e He]. unfold enableSubmitButton. rewrite Hc, Hsb. simpl.
  rewrite alter_preserves by done. by rewrite lookup_alter_eq, He.
Qed.

(** The button updates touch neither the text nor the classes of any
    element. *)
Lemma disableSubmitButton_silent (i : nat) (w : World) (r : nat) :
  textContent <$> elements (disableSubmitButton i w) !! r
    = textContent <$> elements w !! r
  ∧ classList <$> elements (disableSubmitButton i w) !! r
    = classList <$> elements w !! r.
Proof.
  unfold disableSubmitButton. destruct (forms w !! i) as [c|]; [|done].
  destruct (submitButton c); [simpl|done]. by rewrite !alter_preserves.
Qed.

Lemma forms_set_token (i : nat) (c : Config) (t : option string) (w : World) :
  forms w !! i = Some c →
  forms (update_config i (set_turnstileToken t) w) !! i
  = Some (set_turnstileToken t c).
Proof. intros Hc. simpl. by rewrite list_lookup_alter_eq, Hc. Qed.

(** X8.  The token callback opens the gate.  It stores the token in its own
    registration, enables the submit button and sends nothing by itself; a
    submission made next issues one request, whose payload carries exactly
    that token. *)
Theorem token_callback_opens_gate (i : nat) (config : Config) (w : World)
    (token : string)
    (Hreg : forms w !! i = Some config)
    (Htoken : token ≠ "") :
  turnstileToken <$> forms (token_callback i token w) !! i = Some (Some token)
  ∧ (∀ sb, submitButton config = Some sb → is_Some (elements w !! sb) →
       disabled <$> elements (token_callback i token w) !! sb = Some false)
  ∧ requests (token_callback i token w) = requests w
  ∧ ∃ body,
      requests (handleFormSubmit i (token_callback i token w))
      = requests w ++
          [mkRequest FORM_CONFIG.workerUrl "POST"
                     [("Content-Type", "application/json")] (VObj body)]
      ∧ body !! "turnstileToken" = Some (VStr token).
Proof.
  pose proof (forms_set_token i config (Some token) w Hreg) as Hc.
  pose proof (shell_enableSubmitButton i
                (update_config i (set_turnstileToken (Some token)) w)) as Hs.
  unfold shell in Hs. injection Hs as Hf _ _ _ _ _ _ Hr _.
  fold (token_callback i token w) in Hf, Hr.
  assert (Hc' : forms (token_callback i token w) !! i
                = Some (set_turnstileToken (Some token) config))
    by (by rewrite Hf).
  split; [by rewrite Hc'|]. split.
  { intros sb Hsb Hex. by apply (enableSubmitButton_enables i _ _ sb Hc). }
  split; [done|].
  destruct (handleFormSubmit_issues i _ _ Hc') as [Hyes _].
  destruct Hyes as (body & Hreq & Htok & _).
  { simpl. by rewrite bool_decide_true. }
  exists body. by rewrite Hreq, Hr.
Qed.

(** X8 on the sample page. *)
Lemma token_callback_opens_gate_witness :
  turnstileToken <$> forms (token_callback 0 "tok-123" Sample.ready) !! 0
  = Some (Some "tok-123").
Proof.
  refine (proj1 (token_callback_opens_gate 0
            (mkConfig (Some "contact") (Some "Contact the sales team")
               (Some "0x4AAAA-site") 1 (Some 7) (Some 8) (Some 9) (Some 10)
               (Some 11) None (Some 1) None) Sample.ready "tok-123" _ _)).
  - vm_compute; reflexivity.
  - discriminate.
Defined.

(** X9.  The expired and the error callback close the gate.  Either one
    clears the token of its registration and disables the submit button, and
    a submission attempted next sends nothing.  Expiry is silent: it raises
    no alert and changes no element's text or classes.  The error callback
    shows the security-verification-failed message. *)
Theorem token_invalidation_closes_gate (i : nat) (config : Config) (w : World)
    (Hreg : forms w !! i = Some config)
    (Hobj : ∀ et, errorText config = Some et → is_Some (elements w !! et)) :
  (turnstileToken <$> forms (expired_callback i w) !! i = Some None
   ∧ (∀ sb, submitButton config = Some sb → is_Some (elements w !! sb) →
        disabled <$> elements (expired_callback i w) !! sb = Some true)
   ∧ alerts (expired_callback i w) = alerts w
   ∧ (∀ r, textContent <$> elements (expired_callback i w) !! r
           = textContent <$> elements w !! r)
   ∧ (∀ r, classList <$> elements (expired_callback i w) !! r
           = classList <$> elements w !! r)
   ∧ requests (handleFormSubmit i (expired_callback i w)) = requests w)
  ∧ (turnstileToken <$> forms (error_callback i w) !! i = Some None
     ∧ (∀ sb, submitButton config = Some sb → is_Some (elements w !! sb) →
          disabled <$> elements (error_callback i w) !! sb = Some true)
     ∧ message_shown config
         "Security verification failed. Please try again."
         w (error_callback i w)
     ∧ requests (handleFormSubmit i (error_callback i w)) = requests w).
Proof.
  pose proof (forms_set_token i config None w Hreg) as Hc.
  pose proof (shell_disableSubmitButton i
                (update_config i (set_turnstileToken None) w)) as Hs.
  unfold shell in Hs. injection Hs as Hf _ _ _ _ _ Ha Hr _.
  fold (expired_callback i w) in Hf, Ha, Hr.
  assert (Hc' : forms (expired_callback i w) !! i
                = Some (set_turnstileToken None config)) by (by rewrite Hf).
  assert (Hdis : ∀ sb, submitButton config = Some sb →
                   is_Some (elements w !! sb) →
                   disabled <$> elements (expired_callback i w) !! sb
                   = Some true).
  { intros sb Hsb Hex. by apply (disableSubmitButton_disables i _ _ sb Hc). }
  split.
  - split; [by rewrite Hc'|]. split; [done|]. split; [done|].
    split; [intros r; apply (disableSubmitButton_silent i
                               (update_config i (set_turnstileToken None) w))|].
    split; [intros r; apply (disableSubmitButton_silent i
                               (update_config i (set_turnstileToken None) w))|].
    destruct (handleFormSubmit_issues i _ _ Hc') as [_ Hno].
    destruct Hno as [-> _]; done.
  - unfold error_callback. fold (expired_callback i w).
    split; [by rewrite showError_forms, Hc'|].
    split; [intros sb Hsb Hex; rewrite showError_disabled; by apply Hdis|].
    split.
    + assert (Hshown := showError_shown i (set_turnstileToken None config)
                "Security verification failed. Please try again."
                (expired_callback i w) Hc').
      unfold message_shown in *. simpl in Hshown. rewrite Ha in Hshown.
      apply Hshown. intros et Het. unfold expired_callback, disableSubmitButton.
      rewrite Hc. destruct (submitButton _); simpl;
        rewrite ?lookup_alter_is_Some; by apply Hobj.
    + destruct (handleFormSubmit_issues i (set_turnstileToken None config)
                  (showError i "Security verification failed. Please try again."
                     (expired_callback i w))) as [_ Hno].
      { by rewrite showError_forms. }
      destruct Hno as [-> _]; [done|]. by rewrite showError_requests.
Qed.

(** X9 on the sample page, where the first form holds a token. *)
Lemma token_invalidation_closes_gate_witness :
  turnstileToken <$> forms (expired_callback 0 Sample.tokened) !! 0 = Some None
  ∧ requests (handleFormSubmit 0 (expired_callback 0 Sample.tokened)) = [].
Proof.
  destruct (token_invalidation_closes_gate 0
              (mkConfig (Some "contact") (Some "Contact the sales team")
                 (Some "0x4AAAA-site") 1 (Some 7) (Some 8) (Some 9) (Some 10)
                 (Some 11) (Some "tok-123") (Some 1) None) Sample.tokened)
    as [(Htok & _ & _ & _ & _ & Hreq) _].
  - vm_compute; reflexivity.
  - intros et [= <-]. vm_compute. eauto.
  - split; [exact Htok|exact Hreq].
Defined.

(* ================================================================== *)
(** * Properties: the outcome of the verification *)
(* ================================================================== *)

Lemma assoc_set_ne (k k' v : string) (l : list (string * string)) :
  k ≠ k' → assoc k (assoc_set k' v l) = assoc k l.
Proof.
  intros Hk. induction l as [|[k0 v0] l IH]; simpl.
  - by rewrite decide_False.
  - destruct (decide (k0 = k')) as [->|]; simpl.
    + by rewrite !decide_False.
    + by rewrite IH.
Qed.

Lemma assoc_set_eq (k v : string) (l : list (string * string)) :
  assoc k (assoc_set k v l) = Some v.
Proof.
  induction l as [|[k0 v0] l IH]; simpl.
  - by rewrite decide_True.
  - destruct (decide (k0 = k)) as [->|]; simpl.
    + by rewrite decide_True.
    + by rewrite decide_False.
Qed.

Lemma display_set_opacity (v : string) (e : Element) :
  display (set_style "opacity" v e) = display e.
Proof. unfold display. simpl. by apply assoc_set_ne. Qed.

Lemma shell_leave_loading i w :
  shell (setSubmitButtonLoading i false w) = shell w.
Proof.
  unfold setSubmitButtonLoading. destruct (forms w !! i) as [c|]; [|done].
  destruct (submitButton c); [|done].
  destruct (submitLabel c); [|done]. by destruct (truthy _).
Qed.

(** Leaving the loading state touches no element's text, classes or style. *)
Lemma leave_loading_quiet (i : nat) (w : World) (r : nat) :
  textContent <$> elements (setSubmitButtonLoading i false w) !! r
    = textContent <$> elements w !! r
  ∧ classList <$> elements (setSubmitButtonLoading i false w) !! r
    = classList <$> elements w !! r
  ∧ display <$> elements (setSubmitButtonLoading i false w) !! r
    = display <$> elements w !! r.
Proof.
  unfold setSubmitButtonLoading. destruct (forms w !! i) as [c|]; [|done].
  destruct (submitButton c); [|done].
  destruct (submitLabel c); [destruct (truthy _)|]; simpl;
    by rewrite !alter_preserves.
Qed.

Lemma showError_record (i : nat) (m : string) (w : World) :
  turnstileCalls (showError i m w) = turnstileCalls w
  ∧ timers (showError i m w) = timers w.
Proof.
  unfold showError. destruct (forms w !! i) as [c|]; [|done].
  by destruct (errorElement c), (errorText c).
Qed.

Lemma showError_display (i : nat) (m : string) (w : World) (r : nat) :
  display <$> elements (showError i m w) !! r = display <$> elements w !! r.
Proof.
  unfold showError. destruct (forms w !! i) as [c|]; [|done].
  destruct (errorElement c), (errorText c); try done. simpl.
  by rewrite !alter_preserves.
Qed.

Lemma shell_resetTurnstileOnError (i : nat) (c : Config) (w : World) :
  forms w !! i = Some c →
  shell (resetTurnstileOnError i w)
  = if turnstile w then
      (alter (set_turnstileToken None) i (forms w), listeners w, turnstile w,
       headScripts w, turnstileCalls w ++ [TsReset (turnstileWidgetId c)],
       timers w ++ [mkTimer 1000 (RerenderIfTokenless i)], alerts w,
       requests w, href w)
    else shell w.
Proof.
  intros Hc. unfold resetTurnstileOnError. rewrite Hc.
  destruct (turnstile w) eqn:Hts; [|done].
  unfold shell. simpl.
  pose proof (shell_disableSubmitButton i
    (update_config i (set_turnstileToken None)
       (set_turnstileCalls
          (turnstileCalls w ++ [TsReset (turnstileWidgetId c)]) w))) as Hs.
  unfold shell in Hs. simpl in Hs.
  injection Hs as -> -> -> -> -> -> -> -> ->. by rewrite Hts.
Qed.

Lemma resetTurnstileOnError_quiet (i : nat) (w : World) (r : nat) :
  (is_Some (elements (resetTurnstileOnError i w) !! r)
   ↔ is_Some (elements w !! r))
  ∧ display <$> elements (resetTurnstileOnError i w) !! r
    = display <$> elements w !! r.
Proof.
  unfold resetTurnstileOnError. destruct (forms w !! i) as [c|]; [|done].
  destruct (turnstile w); [|done]. simpl. unfold disableSubmitButton. simpl.
  destruct (alter _ i (forms w) !! i) as [c'|]; [|done].
  destruct (submitButton c'); [|done]. simpl.
  rewrite !lookup_alter_is_Some.
  by rewrite (alter_preserves display) by apply display_set_opacity;
     rewrite alter_preserves.
Qed.

Lemma settled_failure_world (i : nat) (o : Outcome) (w : World) :
  failed o →
  handleFormSubmit_settled i o w
  = setSubmitButtonLoading i false
      (showError i (failure_message o) (resetTurnstileOnError i w)).
Proof.
  intros Hfail. unfold handleFormSubmit_settled, failure_message.
  destruct o as [result|]; [|done]. simpl in Hfail. by rewrite Hfail.
Qed.

(** X10.  Recovery after a failed verification or a failed request.  The
    message shown is the collaborator's when it supplies a non-empty one,
    the generic fallback when it supplies none or an empty one, and the
    network-error message when the request itself failed.  No request is
    sent again and the form is not hidden.  With the provider defined, the
    handler asks it for one reset, naming the widget handle of this
    registration when it has one, clears the token and sets one 1000 ms
    timer for the re-render.  With the provider undefined it does none of
    these: no reset, no timer, and the token stays. *)
Theorem settled_failure_recovers (i : nat) (config : Config) (w : World)
    (o : Outcome)
    (Hreg : forms w !! i = Some config)
    (Hfail : failed o)
    (Hobj : ∀ et, errorText config = Some et → is_Some (elements w !! et)) :
  message_shown config (failure_message o) w (handleFormSubmit_settled i o w)
  ∧ requests (handleFormSubmit_settled i o w) = requests w
  ∧ (∀ r, display <$> elements (handleFormSubmit_settled i o w) !! r
          = display <$> elements w !! r)
  ∧ (turnstile w = true →
     turnstileCalls (handleFormSubmit_settled i o w)
       = turnstileCalls w ++ [TsReset (turnstileWidgetId config)]
     ∧ timers (handleFormSubmit_settled i o w)
       = timers w ++ [mkTimer 1000 (RerenderIfTokenless i)]
     ∧ turnstileToken <$> forms (handleFormSubmit_settled i o w) !! i
       = Some None)
  ∧ (turnstile w = false →
     turnstileCalls (handleFormSubmit_settled i o w) = turnstileCalls w
     ∧ timers (handleFormSubmit_settled i o w) = timers w
     ∧ forms (handleFormSubmit_settled i o w) = forms w).
Proof.
  rewrite (settled_failure_world i o w Hfail).
  set (m := failure_message o). set (w1 := resetTurnstileOnError i w).
  pose proof (shell_resetTurnstileOnError i config w Hreg) as Hs1.
  fold w1 in Hs1.
  pose proof (shell_leave_loading i (showError i m w1)) as Hs2.
  unfold shell in Hs2. injection Hs2 as Hf2 _ _ _ Hc2 Htm2 Ha2 Hr2 _.
  destruct (showError_record i m w1) as [Hc3 Htm3].
  assert (∃ c1, forms w1 !! i = Some c1 ∧ static c1 = static config
                ∧ alerts w1 = alerts w ∧ requests w1 = requests w)
    as (c1 & Hc1 & Hst & Ha1 & Hr1).
  { destruct (turnstile w); unfold shell in Hs1;
      injection Hs1 as Hf _ _ _ _ _ Ha Hr _.
    - exists (set_turnstileToken None config).
      by rewrite Hf, list_lookup_alter_eq, Hreg.
    - exists config. by rewrite Hf. }
  split.
  { assert (Hshown : message_shown c1 m w1 (showError i m w1)).
    { apply showError_shown; [done|]. intros et Het.
      apply resetTurnstileOnError_quiet, Hobj.
      injection Hst as _ _ _ _ _ _ _ Het' _. by rewrite <- Het'. }
    unfold message_shown in *. injection Hst as _ _ _ _ _ _ Hee Het _.
    rewrite Hee, Het in Hshown.
    destruct (errorElement config) as [ee|], (errorText config) as [et|];
      try (by rewrite Ha2, Hshown, Ha1).
    destruct Hshown as [Ht Hcl]. split.
    - by rewrite (proj1 (leave_loading_quiet i _ et)).
    - intros e He.
      pose proof (proj1 (proj2 (leave_loading_quiet i (showError i m w1) ee)))
        as Hq.
      rewrite He in Hq. simpl in Hq.
      destruct (elements (showError i m w1) !! ee) as [e0|] eqn:He0; [|done].
      injection Hq as ->. by apply Hcl. }
  split; [by rewrite Hr2, showError_requests, Hr1|].
  split.
  { intros r. rewrite (proj2 (proj2 (leave_loading_quiet i _ r))).
    rewrite showError_display. apply resetTurnstileOnError_quiet. }
  split; intros Hts; rewrite Hts in Hs1; unfold shell in Hs1;
    injection Hs1 as Hf1 _ _ _ Hcalls Htim _ _ _.
  - split; [by rewrite Hc2, Hc3, Hcalls|].
    split; [by rewrite Htm2, Htm3, Htim|].
    by rewrite Hf2, showError_forms, Hf1, list_lookup_alter_eq, Hreg.
  - split; [by rewrite Hc2, Hc3, Hcalls|].
    split; [by rewrite Htm2, Htm3, Htim|].
    by rewrite Hf2, showError_forms, Hf1.
Qed.

(** X10 on the sample page: the request of the first form is rejected. *)
Lemma settled_failure_recovers_witness :
  textContent <$> elements (handleFormSubmit_settled 0 Rejected
                              (handleFormSubmit 0 Sample.tokened)) !! 10
  = Some "Network error. Please check your connection and try again.".
Proof.
  refine (proj1 (proj1 (settled_failure_recovers 0
            (mkConfig (Some "contact") (Some "Contact the sales team")
               (Some "0x4AAAA-site") 1 (Some 7) (Some 8) (Some 9) (Some 10)
               (Some 11) (Some "tok-123") (Some 1) (Some "Submit"))
            (handleFormSubmit 0 Sample.tokened) Rejected _ _ _))).
  - vm_compute; reflexivity.
  - exact I.
  - intros et [= <-]. vm_compute. eauto.
Defined.

Lemma display_set_display (v : string) (e : Element) :
  display (set_style "display" v e) = Some v.
Proof. unfold display. simpl. apply assoc_set_eq. Qed.

Lemma shell_handleSuccess (i : nat) (c : Config) (w : World) :
  forms w !! i = Some c →
  shell (handleSuccess i w)
  = (alter (set_turnstileToken None) i (forms w), listeners w, turnstile w,
     headScripts w,
     turnstileCalls w ++ (if turnstile w then [TsReset None] else []),
     timers w, alerts w, requests w, href w).
Proof.
  intros Hc. unfold handleSuccess. rewrite Hc.
  destruct (successElement c); simpl; destruct (turnstile w) eqn:Hts;
    unfold shell; simpl; by rewrite ?Hts, ?app_nil_r.
Qed.

(** X11.  A successful verification.  Afterwards the token is null, the
    success region, when the registration has one, is displayed as a block,
    and the form is hidden (unless the form element is itself the success
    region).  The provider is asked for one reset, without a widget handle,
    when it is defined.  No error text is written, no alert is raised, no
    timer is set and no request is sent; leaving the loading state enables
    the submit button. *)
Theorem settled_success_outcome (i : nat) (config : Config) (w : World)
    (result : VerificationResult)
    (Hreg : forms w !! i = Some config)
    (Hsuccess : success result = true) :
  turnstileToken
    <$> forms (handleFormSubmit_settled i (Resolved result) w) !! i
  = Some None
  ∧ (successElement config ≠ Some (formElement config) →
     is_Some (elements w !! formElement config) →
     display <$> elements (handleFormSubmit_settled i (Resolved result) w)
                   !! formElement config
     = Some (Some "none"))
  ∧ (∀ se, successElement config = Some se → is_Some (elements w !! se) →
       display <$> elements (handleFormSubmit_settled i (Resolved result) w)
                     !! se
       = Some (Some "block"))
  ∧ turnstileCalls (handleFormSubmit_settled i (Resolved result) w)
    = turnstileCalls w ++ (if turnstile w then [TsReset None] else [])
  ∧ alerts (handleFormSubmit_settled i (Resolved result) w) = alerts w
  ∧ timers (handleFormSubmit_settled i (Resolved result) w) = timers w
  ∧ requests (handleFormSubmit_settled i (Resolved result) w) = requests w
  ∧ (∀ r, textContent
            <$> elements (handleFormSubmit_settled i (Resolved result) w) !! r
          = textContent <$> elements w !! r)
  ∧ (∀ sb, submitButton config = Some sb → is_Some (elements w !! sb) →
       disabled <$> elements (handleFormSubmit_settled i (Resolved result) w)
                      !! sb
       = Some false).
Proof.
  unfold handleFormSubmit_settled. rewrite Hsuccess.
  pose proof (shell_handleSuccess i config w Hreg) as Hs1.
  pose proof (shell_leave_loading i (handleSuccess i w)) as Hs2.
  rewrite Hs1 in Hs2. unfold shell in Hs2.
  injection Hs2 as Hf _ _ _ Hc Htm Ha Hr _.
  assert (Hel : elements (handleSuccess i w)
                = match successElement config with
                  | Some se =>
                      alter (set_style "display" "block") se
                        (alter (set_style "display" "none")
                           (formElement config) (elements w))
                  | None =>
                      alter (set_style "display" "none")
                        (formElement config) (elements w)
                  end).
  { unfold handleSuccess. rewrite Hreg.
    destruct (successElement config); simpl; by destruct (turnstile w). }
  split; [by rewrite Hf, list_lookup_alter_eq, Hreg|].
  split.
  { intros Hne [e He]. rewrite (proj2 (proj2 (leave_loading_quiet i _ _))).
    rewrite Hel. destruct (successElement config) as [se|].
    - rewrite lookup_alter_ne by congruence.
      by rewrite lookup_alter_eq, He; simpl; rewrite display_set_display.
    - by rewrite lookup_alter_eq, He; simpl; rewrite display_set_display. }
  split.
  { intros se Hse [e He]. rewrite (proj2 (proj2 (leave_loading_quiet i _ _))).
    rewrite Hel, Hse, lookup_alter_eq.
    destruct (alter _ (formElement config) (elements w) !! se) as [e'|] eqn:Hx.
    - simpl. by rewrite display_set_display.
    - apply lookup_alter_None in Hx. congruence. }
  repeat (split; [done|]). split.
  { intros r. rewrite (proj1 (leave_loading_quiet i _ _)), Hel.
    destruct (successElement config); by rewrite !alter_preserves. }
  intros sb Hsb Hex.
  apply (leave_loading_enables i (set_turnstileToken None config)).
  - pose proof (shell_handleSuccess i config w Hreg) as Hs. unfold shell in Hs.
    injection Hs as -> _ _ _ _ _ _ _ _. by rewrite list_lookup_alter_eq, Hreg.
  - done.
  - rewrite Hel. destruct (successElement config);
      by rewrite !lookup_alter_is_Some.
Qed.

(** X11 on the sample page: the first form is accepted. *)
Lemma settled_success_outcome_witness :
  let w := handleFormSubmit_settled 0 (Resolved (mkResult true None))
             (handleFormSubmit 0 Sample.tokened) in
  display <$> elements w !! 1 = Some (Some "none")
  ∧ display <$> elements w !! 11 = Some (Some "block").
Proof.
  destruct (settled_success_outcome 0
              (mkConfig (Some "contact") (Some "Contact the sales team")
                 (Some "0x4AAAA-site") 1 (Some 7) (Some 8) (Some 9) (Some 10)
                 (Some 11) (Some "tok-123") (Some 1) (Some "Submit"))
              (handleFormSubmit 0 Sample.tokened) (mkResult true None))
    as (_ & Hform & Hregion & _).
  - vm_compute; reflexivity.
  - reflexivity.
  - split.
    + apply Hform; [discriminate|vm_compute; eauto].
    + apply Hregion; [reflexivity|vm_compute; eauto].
Defined.

(* ================================================================== *)
(** * Properties: the re-render timer *)
(* ================================================================== *)



(* ================================================================== *)
(** * Properties: showing and hiding the error *)
(* ================================================================== *)

Lemma classList_add_idem (c : string) (e : Element) :
  classList_add c (classList_add c e) = classList_add c e.
Proof.
  destruct (decide (c ∈ classList e)) as [Hin|Hin].
  - assert (Hid : classList_add c e = e)
      by (unfold classList_add; by rewrite bool_decide_true).
    by rewrite !Hid.
  - unfold classList_add. rewrite (bool_decide_false _ Hin). simpl.
    rewrite bool_decide_true; [done|]. rewrite elem_of_app, elem_of_cons.
    auto.
Qed.

Lemma classList_add_present (c : string) (e : Element) :
  c ∈ classList (classList_add c e).
Proof.
  unfold classList_add. case_bool_decide; [done|]. simpl.
  rewrite elem_of_app, elem_of_cons. auto.
Qed.

Lemma textContent_classList_add (c : string) (e : Element) :
  textContent (classList_add c e) = textContent e.
Proof. unfold classList_add. by case_bool_decide. Qed.

Lemma hideError_world (i : nat) (c : Config) (w : World) (ee : nat) :
  forms w !! i = Some c → errorElement c = Some ee →
  hideError i w
  = set_elements (alter (classList_add FORM_CONFIG.hideClass) ee (elements w))
      w.
Proof. intros Hc Hee. unfold hideError. by rewrite Hc, Hee. Qed.

(** X13.  Hiding the error.  [hideError] is idempotent: hiding twice is
    hiding once (the class is not added a second time).  After it the error
    region carries the hide class.  Hiding does not clear the message: when
    a message was shown inline and the error is then hidden, the error-text
    element still holds that message, behind the hidden region. *)
Theorem hideError_hides (i : nat) (config : Config) (w : World) (ee : nat)
    (message : string)
    (Hreg : forms w !! i = Some config)
    (Hregion : errorElement config = Some ee)
    (Hobj : is_Some (elements w !! ee)) :
  hideError i (hideError i w) = hideError i w
  ∧ (∃ e, elements (hideError i w) !! ee = Some e
          ∧ FORM_CONFIG.hideClass ∈ classList e)
  ∧ (∃ e, elements (hideError i (showError i message w)) !! ee = Some e
          ∧ FORM_CONFIG.hideClass ∈ classList e)
  ∧ (∀ et, errorText config = Some et → is_Some (elements w !! et) →
       textContent <$> elements (hideError i (showError i message w)) !! et
       = Some message).
Proof.
  destruct Hobj as [e0 He0].
  split; [|split; [|split]].
  - rewrite (hideError_world i config (hideError i w) ee);
      [|by rewrite hideError_forms|done].
    rewrite (hideError_world i config w ee) by done.
    unfold set_elements. simpl. f_equal.
    apply map_eq. intros r. rewrite !lookup_alter.
    case_decide; [subst|done]. rewrite decide_True by done.
    destruct (elements w !! r); simpl; [|done].
    by rewrite classList_add_idem.
  - rewrite (hideError_world i config w ee) by done. simpl.
    rewrite lookup_alter_eq, He0. simpl. eexists.
    split; [done|apply classList_add_present].
  - rewrite (hideError_world i config (showError i message w) ee);
      [|by rewrite showError_forms|done].
    simpl. rewrite lookup_alter_eq.
    assert (is_Some (elements (showError i message w) !! ee)) as [e1 ->].
    { destruct (showError_framed i config w message Hreg) as (_ & _ & _ & Hx).
      apply Hx. eauto. }
    simpl. eexists. split; [done|apply classList_add_present].
  - intros et Het Hex.
    rewrite (hideError_world i config (showError i message w) ee);
      [|by rewrite showError_forms|done].
    simpl. rewrite alter_preserves by apply textContent_classList_add.
    by destruct (showError_inline i config message w ee et Hreg Hregion Het Hex).
Qed.

(** X13 at the first sample form. *)
Lemma hideError_hides_witness :
  hideError 0 (hideError 0 Sample.ready) = hideError 0 Sample.ready.
Proof.
  refine (proj1 (hideError_hides 0
            (mkConfig (Some "contact") (Some "Contact the sales team")
               (Some "0x4AAAA-site") 1 (Some 7) (Some 8) (Some 9) (Some 10)
               (Some 11) None (Some 1) None) Sample.ready 9 "Oops" _ _ _)).
  - vm_compute; reflexivity.
  - reflexivity.
  - vm_compute. eauto.
Defined.

(* ================================================================== *)
(** * Properties: the declared annotations in the payload *)
(* ================================================================== *)





(* ================================================================== *)
(** * Properties: the references of a registration *)
(* ================================================================== *)

Lemma selects_marker (w : World) (v : string) (r : nat) :
  selects w (SelAttr None "cf-form-submit" (Some v)) r →
  marker w r = Some v ∧ is_Some (elements w !! r).
Proof.
  unfold selects, marker. destruct (elements w !! r) as [e|]; [|done].
  simpl. destruct (getAttribute "cf-form-submit" e); [|done].
  rewrite bool_decide_eq_true. intros ->. eauto.
Qed.

Lemma querySelector_selects (f r : nat) (s : Selector) (w : World) :
  querySelector f s w = Some r →
  selects w s r ∧ r ∈ descendants f (document w).
Proof.
  unfold querySelector, querySelectorAll. intros Hq.
  by apply head_Some_elem_of, list_elem_of_filter in Hq.
Qed.

Lemma document_querySelector_selects (r : nat) (s : Selector) (w : World) :
  document_querySelector s w = Some r →
  selects w s r ∧ r ∈ preorder (document w).
Proof.
  unfold document_querySelector, document_querySelectorAll. intros Hq.
  by apply head_Some_elem_of, list_elem_of_filter in Hq.
Qed.

(** X15.  The element references of a new registration.  The submit
    control, the label, the error region and the error text are descendants
    of the registered form; the success region is taken from anywhere in the
    document.  Every reference that is present points to an element object,
    before and after the setup, and the references that are present are
    pairwise different elements. *)
Theorem registration_references (f rnd : nat) (formEl : Element) (w : World)
    (Hf : elements w !! f = Some formEl)
    (Hreg : registrable formEl f w) :
  ∃ c, forms (setupSingleForm f rnd w) !! length (forms w) = Some c
       ∧ formElement c = f
       ∧ (∀ r, r ∈ form_scoped_refs c → r ∈ descendants f (document w))
       ∧ (∀ r, successElement c = Some r → r ∈ preorder (document w))
       ∧ (∀ r, r ∈ own_refs c →
            is_Some (elements w !! r)
            ∧ is_Some (elements (setupSingleForm f rnd w) !! r))
       ∧ NoDup (form_scoped_refs c ++ omap id [successElement c]).
Proof.
  destruct (shell_setupSingleForm f rnd formEl w Hf Hreg) as [k Hs].
  unfold shell in Hs. injection Hs as Hforms _ _ _ _ _ _ _ _.
  set (c0 := mkConfig _ _ _ f _ _ _ _ _ None None None) in Hforms.
  eexists. split.
  { by rewrite Hforms, lookup_app_r, Nat.sub_diag by done. }
  assert (Hkeep : ∀ r, is_Some (elements w !! r) →
                       is_Some (elements (setupSingleForm f rnd w) !! r)).
  { destruct (setupSingleForm_framed f rnd w) as (_ & _ & _ & Hx). exact Hx. }
  assert (own_refs (if turnstile w
                    then set_turnstileWidgetId
                           (Some (S (length (turnstileCalls w)))) c0
                    else c0) = own_refs c0
          ∧ form_scoped_refs (if turnstile w
                    then set_turnstileWidgetId
                           (Some (S (length (turnstileCalls w)))) c0
                    else c0) = form_scoped_refs c0
          ∧ successElement (if turnstile w
                    then set_turnstileWidgetId
                           (Some (S (length (turnstileCalls w)))) c0
                    else c0) = successElement c0
          ∧ formElement (if turnstile w
                    then set_turnstileWidgetId
                           (Some (S (length (turnstileCalls w)))) c0
                    else c0) = f) as (-> & -> & -> & ->)
    by (by destruct (turnstile w)).
  unfold own_refs, form_scoped_refs, c0. simpl.
  destruct (querySelector f Sel.submitButton w) as [r1|] eqn:H1;
    [apply querySelector_selects in H1 as [S1 D1];
     apply selects_marker in S1 as [M1 E1]|];
  destruct (querySelector f Sel.submitLabel w) as [r2|] eqn:H2;
    [apply querySelector_selects in H2 as [S2 D2];
     apply selects_marker in S2 as [M2 E2]| |
     apply querySelector_selects in H2 as [S2 D2];
     apply selects_marker in S2 as [M2 E2]|];
  destruct (querySelector f Sel.errorElement w) as [r3|] eqn:H3;
    try (apply querySelector_selects in H3 as [S3 D3];
         apply selects_marker in S3 as [M3 E3]);
  destruct (querySelector f Sel.errorText w) as [r4|] eqn:H4;
    try (apply querySelector_selects in H4 as [S4 D4];
         apply selects_marker in S4 as [M4 E4]);
  destruct (document_querySelector Sel.successElement w) as [r5|] eqn:H5;
    try (apply document_querySelector_selects in H5 as [S5 D5];
         apply selects_marker in S5 as [M5 E5]);
  simpl;
  (split; [done|]);
  (split; [intros r; rewrite ?elem_of_cons, elem_of_nil; naive_solver|]);
  (split; [intros r; naive_solver|]);
  (split; [intros r; rewrite ?elem_of_cons, elem_of_nil;
           intros Hr; assert (is_Some (elements w !! r))
             by (naive_solver eauto); auto|]);
  apply (NoDup_fmap_1 (marker w)); simpl;
  rewrite ?M1, ?M2, ?M3, ?M4, ?M5;
  repeat (apply NoDup_cons; split;
          [rewrite ?elem_of_cons, elem_of_nil; naive_solver|]);
  apply NoDup_nil_2.
Qed.

(** X15 at the first sample form. *)
Lemma registration_references_witness :
  ∃ c, forms (setupSingleForm 1 3 Sample.page) !! 0 = Some c
       ∧ NoDup (form_scoped_refs c ++ omap id [successElement c]).
Proof.
  destruct (registration_references 1 3
              (Sample.html "form" [("cf-form", "contact");
                 ("cf-form-purpose", "Contact the sales team");
                 ("cf-turnstile-sitekey", "0x4AAAA-site")] "")
              Sample.page) as (c & Hc & _ & _ & _ & _ & Hnd).
  - vm_compute; reflexivity.
  - repeat split; try reflexivity. vm_compute.
    repeat constructor; vm_compute; auto.
  - exists c. split; [exact Hc|exact Hnd].
Defined.

(* ================================================================== *)
(** * The document tree: appending and inserting before a node *)
(* ================================================================== *)






Section InsertBefore.

Variables (b c : nat).





End InsertBefore.

(* ================================================================== *)
(** * Properties: the widget container *)
(* ================================================================== *)







